(** * drivetogcs: a shallow embedding of the Drive-to-GCS description pipeline

    The program lists the files of a Drive folder, downloads each one into a
    local folder, mirrors it to a Cloud Storage bucket, asks a generative
    model for a description and appends one record per file to a CSV writer.

    Every remote service and the operating system are kept as oracles of an
    environment record [Env]; the local folder, the bucket, the CSV rows and
    the trace of external calls are the explicit state [World] threaded
    through a small state-and-abort monad [Prog]. *)

From Stdlib Require Import ZArith Lia Ascii String.
From stdpp Require Import base gmap strings list pretty.

Open Scope string_scope.
Open Scope list_scope.
Open Scope Z_scope.

(** ** Library functions of the Go runtime used by the program *)

Module Go.

(** A Go [error] value is kept as its message; [nil] is [None]. *)
Definition error := option string.

(** A Go result pair [(v, err)] in which exactly one side is meaningful. *)
Inductive Result (A : Type) : Type :=
| Ok (a : A)
| Err (e : string).
Arguments Ok {A} a.
Arguments Err {A} e.

Definition bytes := list Byte.byte.

(** [len(b)] as a Go [int]. *)
Definition len {A : Type} (l : list A) : Z := Z.of_nat (length l).

(** [strings.Split(s, sep)] for a one-character separator: the pieces of
    [s] between occurrences of [sep]; an empty [s] gives one empty piece. *)
Fixpoint strings_Split (s : string) (sep : ascii) : list string :=
  match s with
  | EmptyString => [""]
  | String c rest =>
      if Ascii.eqb c sep then "" :: strings_Split rest sep
      else match strings_Split rest sep with
           | [] => [String c ""]
           | piece :: pieces => String c piece :: pieces
           end
  end.

(** [strings.Join(parts, sep)]. *)
Definition strings_Join (parts : list string) (sep : string) : string :=
  String.concat sep parts.

(** [fmt.Sprintf("%d", n)]. *)
Definition fmt_d (n : Z) : string := pretty n.

(** [http.StatusOK]. *)
Definition http_StatusOK : Z := 200.

End Go.
Import Go.

(** ** Package-level variables and command-line flags (lines 27-68) *)

Record Globals : Type := mkGlobals {
  sourceFolderID : string;
  localFolderName : string;
  maxFiles : Z;
  projectID : string;
  location : string;
  model : string;
  gcsBucket : string;
  gcsFolderPath : string;
  alwaysUploadToGCS : bool;
  createDescription : bool;
  customPromptLocation : string;
  mimeTypes : list string
}.

(** The variables as their declarations initialise them. *)
Definition package_vars : Globals :=
  {| sourceFolderID := ""; localFolderName := "local"; maxFiles := 0;
     projectID := ""; location := "us-central1"; model := "gemini-2.0-flash";
     gcsBucket := ""; gcsFolderPath := ""; alwaysUploadToGCS := false;
     createDescription := false; customPromptLocation := "";
     mimeTypes := [] |}.

Definition set_mimeTypes (v : list string) (g : Globals) : Globals :=
  mkGlobals (sourceFolderID g) (localFolderName g) (maxFiles g) (projectID g)
    (location g) (model g) (gcsBucket g) (gcsFolderPath g)
    (alwaysUploadToGCS g) (createDescription g) (customPromptLocation g) v.

Definition set_projectID (v : string) (g : Globals) : Globals :=
  mkGlobals (sourceFolderID g) (localFolderName g) (maxFiles g) v
    (location g) (model g) (gcsBucket g) (gcsFolderPath g)
    (alwaysUploadToGCS g) (createDescription g) (customPromptLocation g)
    (mimeTypes g).

Definition set_location (v : string) (g : Globals) : Globals :=
  mkGlobals (sourceFolderID g) (localFolderName g) (maxFiles g) (projectID g)
    v (model g) (gcsBucket g) (gcsFolderPath g)
    (alwaysUploadToGCS g) (createDescription g) (customPromptLocation g)
    (mimeTypes g).

Definition set_gcsBucket (v : string) (g : Globals) : Globals :=
  mkGlobals (sourceFolderID g) (localFolderName g) (maxFiles g) (projectID g)
    (location g) (model g) v (gcsFolderPath g)
    (alwaysUploadToGCS g) (createDescription g) (customPromptLocation g)
    (mimeTypes g).

Module Flags.

(** One decoded command-line argument: the flag it names and its value.
    The type lists the flags [init] registers, so an unknown flag or an
    ill-typed value (on which [flag.Parse] exits) cannot be written. *)
Inductive Arg : Type :=
| ArgFolder (v : string)
| ArgLocal (v : string)
| ArgMax (v : Z)
| ArgGcsBucket (v : string)
| ArgGcsPath (v : string)
| ArgAlwaysUpload (v : bool)
| ArgDescribe (v : bool)
| ArgPrompt (v : string)
| ArgMimeTypes (v : string).

(** The storage the registered flags are bound to: the package variables
    (the [flag.XxxVar] calls) and the fresh string cell that
    [flag.String("mime-types", ...)] allocates and returns. *)
Record Cells : Type := mkCells {
  vars : Globals;
  mimeTypesFlag : string
}.

(** Registration stores each default in its variable. *)
Definition register (g : Globals) : Cells :=
  {| vars := mkGlobals (sourceFolderID g) (localFolderName g) (maxFiles g)
               (projectID g) (location g) (model g)
               "" "" false true "" (mimeTypes g);
     mimeTypesFlag := "image/jpeg,image/png" |}.

(** [flag.Parse] stores the value of one argument in the cell of its flag. *)
Definition store (c : Cells) (a : Arg) : Cells :=
  let g := vars c in
  match a with
  | ArgFolder v =>
      mkCells (mkGlobals v (localFolderName g) (maxFiles g) (projectID g)
        (location g) (model g) (gcsBucket g) (gcsFolderPath g)
        (alwaysUploadToGCS g) (createDescription g)
        (customPromptLocation g) (mimeTypes g)) (mimeTypesFlag c)
  | ArgLocal v =>
      mkCells (mkGlobals (sourceFolderID g) v (maxFiles g) (projectID g)
        (location g) (model g) (gcsBucket g) (gcsFolderPath g)
        (alwaysUploadToGCS g) (createDescription g)
        (customPromptLocation g) (mimeTypes g)) (mimeTypesFlag c)
  | ArgMax v =>
      mkCells (mkGlobals (sourceFolderID g) (localFolderName g) v
        (projectID g) (location g) (model g) (gcsBucket g)
        (gcsFolderPath g) (alwaysUploadToGCS g) (createDescription g)
        (customPromptLocation g) (mimeTypes g)) (mimeTypesFlag c)
  | ArgGcsBucket v => mkCells (set_gcsBucket v g) (mimeTypesFlag c)
  | ArgGcsPath v =>
      mkCells (mkGlobals (sourceFolderID g) (localFolderName g) (maxFiles g)
        (projectID g) (location g) (model g) (gcsBucket g) v
        (alwaysUploadToGCS g) (createDescription g)
        (customPromptLocation g) (mimeTypes g)) (mimeTypesFlag c)
  | ArgAlwaysUpload v =>
      mkCells (mkGlobals (sourceFolderID g) (localFolderName g) (maxFiles g)
        (projectID g) (location g) (model g) (gcsBucket g)
        (gcsFolderPath g) v (createDescription g)
        (customPromptLocation g) (mimeTypes g)) (mimeTypesFlag c)
  | ArgDescribe v =>
      mkCells (mkGlobals (sourceFolderID g) (localFolderName g) (maxFiles g)
        (projectID g) (location g) (model g) (gcsBucket g)
        (gcsFolderPath g) (alwaysUploadToGCS g) v
        (customPromptLocation g) (mimeTypes g)) (mimeTypesFlag c)
  | ArgPrompt v =>
      mkCells (mkGlobals (sourceFolderID g) (localFolderName g) (maxFiles g)
        (projectID g) (location g) (model g) (gcsBucket g)
        (gcsFolderPath g) (alwaysUploadToGCS g) (createDescription g)
        v (mimeTypes g)) (mimeTypesFlag c)
  | ArgMimeTypes v => mkCells g v
  end.

Definition flag_Parse (args : list Arg) (c : Cells) : Cells :=
  fold_left store args c.

(** [init]: register the flags, split the mime-types cell into the
    [mimeTypes] variable, then parse the command line; the statements are
    in the order of lines 53-67. *)
Definition init (args : list Arg) : Globals :=
  let c := register package_vars in
  let c := mkCells (set_mimeTypes (strings_Split (mimeTypesFlag c) ","%char) (vars c))
                   (mimeTypesFlag c) in
  vars (flag_Parse args c).

End Flags.




(** ** The Drive file record and the listing query (lines 171-203) *)

Record File : Type := mkFile {
  Id : string;
  Name : string;
  MimeType : string
}.

Definition mimeQueryParts (mimeTypes : list string) : list string :=
  map (fun mimeType => "mimeType = '" +:+ mimeType +:+ "'") mimeTypes.

Definition listFiles_query (folderID : string) (mimeTypes : list string) : string :=
  "'" +:+ folderID +:+ "' in parents and ("
      +:+ strings_Join (mimeQueryParts mimeTypes) " or " +:+ ")".

(** ** External collaborators *)

(** A local path or an object path is kept as the pair that
    [filepath.Join] receives: the folder and the entry name. The cleaning of
    separators inside a name is not modelled. *)
Definition Path : Type := (string * string)%type.

Definition filepath_Join (dir name : string) : Path := (dir, name).

(** The text of a path, for log lines. *)
Definition path_text (p : Path) : string :=
  if decide (p.1 = "") then p.2 else p.1 +:+ "/" +:+ p.2.

(** What [driveSrv.Files.Get(id).Download()] followed by reading the body
    can give: a failed request, or a response with its status code and the
    result of copying its body. *)
Inductive Download : Type :=
| DownloadErr (e : string)
| DownloadResp (StatusCode : Z) (Body : Result bytes).

(** A parsed prompt template: executing it on the image name gives the
    prompt or an error. *)
Definition Template : Type := string -> Result string.

Inductive FsOp : Type :=
| OpStatDir (dir : string)
| OpStatFile (p : Path)
| OpMkdirAll (dir : string)
| OpWriteFile (p : Path).

Inductive GcsOp : Type :=
| OpAttrs (bucket : string) (p : Path)
| OpWrite (bucket : string) (p : Path)
| OpClose (bucket : string) (p : Path).

(** The oracles: every answer of a remote service, and every failure the
    operating system or a client library may report. *)
Record Env : Type := mkEnv {
  os_Getenv : string -> string;
  os_ReadFile : string -> Result bytes;
  google_ConfigFromJSON : bytes -> error;
  getClient : error;
  drive_NewService : error;
  genai_NewClient : error;
  os_Create : string -> error;
  drive_List : string -> Result (list (option File));
  drive_Download : string -> Download;
  fs_fault : FsOp -> error;
  storage_NewClient : error;
  gcs_fault : GcsOp -> error;
  template_ParseFiles : string -> Result Template;
  template_builtin : Result Template;
  genai_GenerateContent : string -> bytes -> string -> string -> Result string;
  csv_fault : list string -> error;
  go_schedule : list File -> list File
}.

(** ** Program state *)

Inductive Event : Type :=
| EvLog (line : string)
| EvList (query : string)
| EvDownload (id : string)
| EvWriteFile (p : Path) (data : bytes)
| EvAttrs (bucket : string) (p : Path)
| EvUpload (bucket : string) (p : Path) (data : bytes)
| EvGenerate (model : string) (data : bytes) (mime prompt : string)
| EvCsvWrite (record : list string).

Record World : Type := mkWorld {
  local_fs : gmap string (gmap string bytes);
  bucket_store : gmap (string * Path) bytes;
  csv_rows : list (list string);
  trace : list Event
}.

Definition emit (ev : Event) (w : World) : World :=
  mkWorld (local_fs w) (bucket_store w) (csv_rows w) (trace w ++ [ev]).

Definition set_local_fs (fs : gmap string (gmap string bytes)) (w : World) : World :=
  mkWorld fs (bucket_store w) (csv_rows w) (trace w).

Definition set_bucket_store (st : gmap (string * Path) bytes) (w : World) : World :=
  mkWorld (local_fs w) st (csv_rows w) (trace w).

Definition add_row (record : list string) (w : World) : World :=
  mkWorld (local_fs w) (bucket_store w) (csv_rows w ++ [record]) (trace w).

(** The content of a local file, if the file exists. *)
Definition local_file (w : World) (p : Path) : option bytes :=
  local_fs w !! p.1 ≫= (.!! p.2).

(** ** The monad of the program: state, and the two ways a Go process stops
    early ([log.Fatalf] exits, [panic] unwinds). The state at the stop is
    kept. *)

Inductive Outcome (A : Type) : Type :=
| Ret (a : A)
| Fatal (msg : string)
| Panic (msg : string).
Arguments Ret {A} a.
Arguments Fatal {A} msg.
Arguments Panic {A} msg.

Definition Prog (A : Type) : Type := World -> Outcome A * World.

Definition ret {A : Type} (a : A) : Prog A := fun w => (Ret a, w).

Definition bind {A B : Type} (m : Prog A) (k : A -> Prog B) : Prog B :=
  fun w =>
    match m w with
    | (Ret a, w') => k a w'
    | (Fatal msg, w') => (Fatal msg, w')
    | (Panic msg, w') => (Panic msg, w')
    end.

Notation "'let*' x ':=' m 'in' k" := (bind m (fun x => k))
  (at level 10, x pattern, m at level 100, k at level 200).
Notation "m ';;' k" := (bind m (fun _ => k))
  (at level 100, k at level 200, right associativity).

Definition log_Printf (line : string) : Prog unit :=
  fun w => (Ret tt, emit (EvLog line) w).

Definition log_Fatalf {A : Type} (line : string) : Prog A :=
  fun w => (Fatal line, emit (EvLog line) w).

Definition panic {A : Type} (msg : string) : Prog A :=
  fun w => (Panic msg, w).

(** [true] when the outcome is a normal return. *)
Definition returned {A : Type} (o : Outcome A) : bool :=
  match o with Ret _ => true | _ => false end.

(** ** The per-file pipeline (lines 205-357) *)

Inductive StatResult : Type :=
| StatOk
| StatNotExist
| StatErr (e : string).

(** [os.IsNotExist(err)] on the error of a [Stat]. *)
Definition os_IsNotExist (r : StatResult) : bool :=
  match r with StatNotExist => true | _ => false end.

Inductive AttrsResult : Type :=
| AttrsFound
| AttrsNotExist
| AttrsErr (e : string).

Section Pipeline.

Context (E : Env) (G : Globals).

(** *** Operating-system and client-library calls *)

Definition os_Stat_dir (dir : string) : Prog StatResult := fun w =>
  match fs_fault E (OpStatDir dir) with
  | Some e => (Ret (StatErr e), w)
  | None =>
      match local_fs w !! dir with
      | Some _ => (Ret StatOk, w)
      | None => (Ret StatNotExist, w)
      end
  end.

Definition os_Stat_file (p : Path) : Prog StatResult := fun w =>
  match fs_fault E (OpStatFile p) with
  | Some e => (Ret (StatErr e), w)
  | None =>
      match local_file w p with
      | Some _ => (Ret StatOk, w)
      | None => (Ret StatNotExist, w)
      end
  end.

Definition os_MkdirAll (dir : string) : Prog error := fun w =>
  match fs_fault E (OpMkdirAll dir) with
  | Some e => (Ret (Some e), w)
  | None =>
      match local_fs w !! dir with
      | Some _ => (Ret None, w)
      | None => (Ret None, set_local_fs (<[dir := ∅]> (local_fs w)) w)
      end
  end.

Definition os_WriteFile (p : Path) (data : bytes) : Prog error := fun w =>
  let w := emit (EvWriteFile p data) w in
  match fs_fault E (OpWriteFile p) with
  | Some e => (Ret (Some e), w)
  | None =>
      match local_fs w !! p.1 with
      | None => (Ret (Some "no such file or directory"), w)
      | Some entries =>
          (Ret None, set_local_fs (<[p.1 := <[p.2 := data]> entries]> (local_fs w)) w)
      end
  end.

Definition Files_Get_Download (id : string) : Prog Download := fun w =>
  (Ret (drive_Download E id), emit (EvDownload id) w).

Definition Object_Attrs (bucket : string) (p : Path) : Prog AttrsResult := fun w =>
  let w := emit (EvAttrs bucket p) w in
  match gcs_fault E (OpAttrs bucket p) with
  | Some e => (Ret (AttrsErr e), w)
  | None =>
      match bucket_store w !! (bucket, p) with
      | Some _ => (Ret AttrsFound, w)
      | None => (Ret AttrsNotExist, w)
      end
  end.

Definition Writer_Write (bucket : string) (p : Path) (data : bytes) : Prog error :=
  fun w => (Ret (gcs_fault E (OpWrite bucket p)), emit (EvUpload bucket p data) w).

(** The object becomes visible in the bucket when the writer is closed. *)
Definition Writer_Close (bucket : string) (p : Path) (data : bytes) : Prog error :=
  fun w =>
    match gcs_fault E (OpClose bucket p) with
    | Some e => (Ret (Some e), w)
    | None => (Ret None, set_bucket_store (<[(bucket, p) := data]> (bucket_store w)) w)
    end.

Definition Models_GenerateContent (data : bytes) (mime prompt : string)
  : Prog (Result string) := fun w =>
  (Ret (genai_GenerateContent E (model G) data mime prompt),
   emit (EvGenerate (model G) data mime prompt) w).

Definition csvWriter_Write (record : list string) : Prog error := fun w =>
  let w := emit (EvCsvWrite record) w in
  match csv_fault E record with
  | Some e => (Ret (Some e), w)
  | None => (Ret None, add_row record w)
  end.

(** *** getFileBytes (lines 276-324) *)

(** Lines 301-306: create the local folder if it does not exist; the
    error of [os.MkdirAll], if any, is the result. *)
Definition ensure_local_folder : Prog error :=
  let* st := os_Stat_dir (localFolderName G) in
  if os_IsNotExist st then os_MkdirAll (localFolderName G) else ret None.

Definition getFileBytes (file : File) : Prog (Result bytes) :=
  let* resp := Files_Get_Download (Id file) in
  match resp with
  | DownloadErr e => log_Fatalf ("Error downloading file: " +:+ e)
  | DownloadResp StatusCode Body =>
      if negb (StatusCode =? http_StatusOK)
      then ret (Err ("Error: HTTP status code " +:+ fmt_d StatusCode))
      else
        match Body with
        | Err e => ret (Err ("Unable to read response body: " +:+ e))
        | Ok fileBytes =>
            let* mk := ensure_local_folder in
            match mk with
            | Some e => ret (Err ("Unable to create local folder: " +:+ e))
            | None =>
                let localFilePath := filepath_Join (localFolderName G) (Name file) in
                let* st := os_Stat_file localFilePath in
                match st with
                | StatNotExist =>
                    log_Printf ("writing " +:+ Name file +:+ " ...");;
                    let* err := os_WriteFile localFilePath fileBytes in
                    match err with
                    | Some e => ret (Err ("unable to write file: " +:+ e))
                    | None => ret (Ok fileBytes)
                    end
                | StatErr e =>
                    ret (Err ("error checking if file exists: " +:+ e))
                | StatOk =>
                    log_Printf ("File '" +:+ path_text localFilePath
                                +:+ "' exists locally, skipping write.");;
                    ret (Ok fileBytes)
                end
            end
        end
  end.

(** *** uploadFileToGCS (lines 327-357) *)

(** The existence check of lines 337-345: [Some r] when the function
    returns [r] from inside the check, [None] when control falls through
    to the upload. *)
Definition existence_check (bucketName : string) (objectPath : Path)
    (override : bool) : Prog (option error) :=
  if negb override then
    let* probe := Object_Attrs bucketName objectPath in
    match probe with
    | AttrsFound =>
        log_Printf ("File '" +:+ path_text objectPath +:+ "' already exists in GCS "
                    +:+ bucketName +:+ ". Skipping upload.");;
        ret (Some None)
    | AttrsNotExist => ret None
    | AttrsErr e => ret (Some (Some ("failed to check object existence: " +:+ e)))
    end
  else ret None.

(** Lines 347-356: write the bytes to a new object writer and close it. *)
Definition put_object (bucketName : string) (objectPath : Path)
    (fileBytes : bytes) : Prog error :=
  let* werr := Writer_Write bucketName objectPath fileBytes in
  match werr with
  | Some e => ret (Some ("failed to write file to GCS: " +:+ e))
  | None =>
      let* cerr := Writer_Close bucketName objectPath fileBytes in
      match cerr with
      | Some e => ret (Some ("failed to close writer: " +:+ e))
      | None =>
          log_Printf ("uploaded to " +:+ bucketName +:+ "/"
                      +:+ path_text objectPath);;
          ret None
      end
  end.

Definition uploadFileToGCS (bucketName folderPath objectName : string)
    (fileBytes : bytes) (override : bool) : Prog error :=
  match storage_NewClient E with
  | Some e => ret (Some ("failed to create client: " +:+ e))
  | None =>
      let objectPath := filepath_Join folderPath objectName in
      let* early := existence_check bucketName objectPath override in
      match early with
      | Some r => ret r
      | None => put_object bucketName objectPath fileBytes
      end
  end.

(** *** describe (lines 206-273) *)

(** The text returned when description is switched off. *)
Definition placeholder : string := "Description skipped".

(** Lines 229-239: the custom template when one is configured (a parse
    error is returned to the caller), the built-in one otherwise
    ([template.Must] panics on a parse error). *)
Definition select_template : Prog (Result Template) :=
  if decide (customPromptLocation G ≠ "") then
    match template_ParseFiles E (customPromptLocation G) with
    | Err e => ret (Err ("failed to parse custom template: " +:+ e))
    | Ok tmpl => ret (Ok tmpl)
    end
  else
    match template_builtin E with
    | Err e => panic e
    | Ok tmpl => ret (Ok tmpl)
    end.

(** Lines 224-270: the description of bytes already obtained. *)
Definition describe_bytes (imageFile : File) (fileBytes : bytes) (byteCount : Z)
  : Prog (string * Z * error) :=
  if createDescription G then
    log_Printf ("Describing " +:+ Name imageFile +:+ " ...");;
    let* parsed := select_template in
    match parsed with
    | Err e => ret ("", 0, Some e)
    | Ok tmpl =>
        match tmpl (Name imageFile) with
        | Err e => ret ("", 0, Some e)
        | Ok prompt =>
            let* description :=
              Models_GenerateContent fileBytes (MimeType imageFile) prompt in
            match description with
            | Err e =>
                log_Printf ("unable to generate content: " +:+ e);;
                log_Printf ("prompt: " +:+ prompt);;
                ret ("", 0, None)
            | Ok text => ret (text, byteCount, None)
            end
        end
    end
  else ret (placeholder, byteCount, None).

Definition describe (imageFile : File) : Prog (string * Z * error) :=
  let* got := getFileBytes imageFile in
  match got with
  | Err e => ret ("", 0, Some e)
  | Ok fileBytes =>
      log_Printf ("Obtained file bytes " +:+ Name imageFile +:+ " ("
                  +:+ fmt_d (len fileBytes) +:+ ")");;
      let* err := uploadFileToGCS (gcsBucket G) (gcsFolderPath G)
                    (Name imageFile) fileBytes (alwaysUploadToGCS G) in
      match err with
      | Some _ => log_Printf "Unable to upload to GCS"
      | None => ret tt
      end;;
      describe_bytes imageFile fileBytes (len fileBytes)
  end.

(** *** The goroutine of one file (lines 142-163) *)

(** Lines 145-147: the description after an error of [describe] has been
    turned into text. *)
Definition record_description (r : string * Z * error) : string :=
  let '(description, size, err) := r in
  match err with
  | Some e => "Error: " +:+ e
  | None => description
  end.

(** Lines 148-154: the record built from what [describe] returned. *)
Definition make_record (file : File) (r : string * Z * error) : list string :=
  let '(description, size, err) := r in
  [Name file; fmt_d size; MimeType file; Id file; record_description r].

Definition task (file : File) : Prog unit :=
  let* r := describe file in
  let record := make_record file r in
  let* werr := csvWriter_Write record in
  match werr with
  | Some e => log_Printf ("failed to write to CSV: " +:+ e)
  | None => ret tt
  end;;
  match r.2 with
  | Some e => log_Printf ("unable to describe: " +:+ e)
  | None => ret tt
  end;;
  log_Printf (Name file +:+ " (" +:+ MimeType file +:+ ") " +:+ Id file
              +:+ " = " +:+ record_description r).

(** The goroutines are taken as atomic units that run one after another,
    in the order in which they are given. A [log.Fatalf] or a panic in one
    of them stops the process: the later ones do not run. *)
Fixpoint run_tasks (files : list File) : Prog unit :=
  match files with
  | [] => ret tt
  | file :: rest => task file;; run_tasks rest
  end.

(** *** listFiles (lines 171-203) *)

Definition listFiles (folderID : string) (mimeTypes : list string) : Prog (list File) :=
  let query := listFiles_query folderID mimeTypes in
  fun w =>
    let w := emit (EvList query) w in
    match drive_List E query with
    | Err e => log_Fatalf ("error occurred while listing files: " +:+ e) w
    | Ok files =>
        (log_Printf (folderID +:+ " has " +:+ fmt_d (len files)
                     +:+ " files matching " +:+ query);;
         ret (omap id files)) w
    end.

(** *** The loop of main (lines 134-165) *)

Definition fileCount (fileList : list File) : Z :=
  let fileCount := len fileList in
  if (maxFiles G >? 0) && (maxFiles G <? fileCount) then maxFiles G else fileCount.

(** The files for which a goroutine is started: indices 0 to fileCount-1. *)
Definition spawned (fileList : list File) : list File :=
  take (Z.to_nat (fileCount fileList)) fileList.

(** Lines 139-165: start the goroutines and wait for all of them; the
    scheduler decides the order in which they run. *)
Definition process (fileList : list File) : Prog unit :=
  run_tasks (go_schedule E (spawned fileList)).

End Pipeline.

(** ** main (lines 70-168) *)

Definition main (E : Env) (G : Globals) : Prog unit :=
  let projectID := os_Getenv E "PROJECT_ID" in
  if decide (projectID = "") then
    log_Fatalf "Please provide PROJECT_ID environment variable, e.g. export PROJECT_ID=$(gcloud config get-value core/project)"
  else
    let G := set_projectID projectID G in
    let location := os_Getenv E "LOCATION" in
    let G := set_location (if decide (location = "") then "us-central1" else location) G in
    let credentials := os_Getenv E "GOOGLE_CREDENTIALS" in
    if decide (credentials = "") then panic "GOOGLE_CREDENTIALS not set"
    else
      let G := if decide (gcsBucket G = "")
               then set_gcsBucket (projectID +:+ "-media") G else G in
      match os_ReadFile E credentials with
      | Err e => panic e
      | Ok b =>
          match google_ConfigFromJSON E b with
          | Some e => log_Fatalf ("Unable to parse client secret file to config: " +:+ e)
          | None =>
          match getClient E with
          | Some e => log_Fatalf e
          | None =>
          match drive_NewService E with
          | Some e => log_Fatalf ("Unable to create Drive service: " +:+ e)
          | None =>
          match genai_NewClient E with
          | Some e =>
              log_Printf ("failed to create client: " +:+ e);;
              log_Fatalf ("Unable to create genai client: " +:+ e)
          | None =>
              let* fileList := listFiles E (sourceFolderID G) (mimeTypes G) in
              log_Printf ("Files " +:+ fmt_d (len fileList));;
              match os_Create E "descriptions.csv" with
              | Some e => log_Fatalf ("failed to create CSV file: " +:+ e)
              | None =>
                  process E G fileList;;
                  log_Printf "CSV file written successfully."
              end
          end end end end
      end.

(** The whole program: [init] on the command line, then [main]. *)
Definition program (E : Env) (args : list Flags.Arg) : Prog unit :=
  main E (Flags.init args).

Definition empty_world : World :=
  mkWorld ∅ ∅ [] [].

(** ** Observations on a run *)

Definition is_generate (ev : Event) : bool :=
  match ev with EvGenerate _ _ _ _ => true | _ => false end.

Definition is_list (ev : Event) : bool :=
  match ev with EvList _ => true | _ => false end.

Definition is_download (ev : Event) : bool :=
  match ev with EvDownload _ => true | _ => false end.

Definition is_upload (ev : Event) : bool :=
  match ev with EvUpload _ _ _ => true | _ => false end.

Definition is_attrs (ev : Event) : bool :=
  match ev with EvAttrs _ _ => true | _ => false end.

Definition is_write_file (ev : Event) : bool :=
  match ev with EvWriteFile _ _ => true | _ => false end.

(** The external calls of one kind made so far. *)
Definition calls (sel : Event -> bool) (w : World) : list Event :=
  List.filter sel (trace w).

(** What [csvWriter.Write] adds to the table for a record: the record,
    unless the writer reports an error. *)
Definition csv_accepts (E : Env) (record : list string) : list (list string) :=
  match csv_fault E record with
  | None => [record]
  | Some _ => []
  end.

(** The row count in the words of the specification: the number of listed
    files, capped by the maximum when that is set to a positive value. *)
Definition specified_row_count (G : Globals) (fileList : list File) : Z :=
  if maxFiles G >? 0 then Z.min (len fileList) (maxFiles G) else len fileList.


(** A prompt template is resolved: the custom one when a location is
    configured, the built-in one otherwise (lines 229-239). *)
Definition resolves (E : Env) (G : Globals) (tmpl : Template) : Prop :=
  (customPromptLocation G <> "" /\
   template_ParseFiles E (customPromptLocation G) = Ok tmpl) \/
  (customPromptLocation G = "" /\ template_builtin E = Ok tmpl).

(** The package variables as [main] has set them when it lists the folder
    (lines 73-93): the project and the location from the environment, and
    the bucket named after the project when none was given. *)
Definition configured (E : Env) (G : Globals) : Globals :=
  let projectID := os_Getenv E "PROJECT_ID" in
  let G := set_projectID projectID G in
  let location := os_Getenv E "LOCATION" in
  let G := set_location (if decide (location = "") then "us-central1" else location) G in
  if decide (gcsBucket G = "") then set_gcsBucket (projectID +:+ "-media") G else G.

(** What [main] needs before it lists the folder (lines 73-117): the two
    environment variables, a readable and well-formed credentials file, an
    authorised client, and the two service clients. *)
Definition startup_ok (E : Env) : Prop :=
  os_Getenv E "PROJECT_ID" <> "" /\
  os_Getenv E "GOOGLE_CREDENTIALS" <> "" /\
  (exists b, os_ReadFile E (os_Getenv E "GOOGLE_CREDENTIALS") = Ok b /\
             google_ConfigFromJSON E b = None) /\
  getClient E = None /\
  drive_NewService E = None /\
  genai_NewClient E = None.

(** What [main] needs before it starts the goroutines (lines 73-128): the
    above, a listing that succeeds, and the output file. *)
Definition ready (E : Env) (G : Globals) : Prop :=
  startup_ok E /\
  (exists files,
     drive_List E (listFiles_query (sourceFolderID G) (mimeTypes G)) = Ok files) /\
  os_Create E "descriptions.csv" = None.

(** Between two states only log lines and listing requests were added. *)
Definition only_logged (w w' : World) : Prop :=
  local_fs w' = local_fs w /\
  bucket_store w' = bucket_store w /\
  csv_rows w' = csv_rows w /\
  forall sel,
    (forall line, sel (EvLog line) = false) ->
    (forall query, sel (EvList query) = false) ->
    calls sel w' = calls sel w.

(** A program keeps a relation between the state before and after it. *)
Definition preserves {A : Type} (R : World -> World -> Prop) (m : Prog A) : Prop :=
  forall w, R w (m w).2.

(** The relation "the observation [f] is unchanged". *)
Definition keeps {X : Type} (f : World -> X) (w w' : World) : Prop := f w' = f w.

(** The relation "every local file is still there with the same content". *)
Definition files_kept (w w' : World) : Prop :=
  forall p c, local_file w p = Some c -> local_file w' p = Some c.

(** What a relation between the state before and after tolerates: new
    events of the kinds [quiet] accepts, changes of the local folder, of the
    bucket, of the CSV rows. *)
Class EventFrame (R : World -> World -> Prop) (quiet : Event -> bool) : Prop :=
  event_frame : forall ev w, quiet ev = true -> R w (emit ev w).
Class FsFrame (R : World -> World -> Prop) : Prop :=
  fs_frame : forall fs w, R w (set_local_fs fs w).
Class StoreFrame (R : World -> World -> Prop) : Prop :=
  store_frame : forall st w, R w (set_bucket_store st w).
Class RowFrame (R : World -> World -> Prop) : Prop :=
  row_frame : forall record w, R w (add_row record w).

(** The event filter that lets every event through. *)
Definition any_event (ev : Event) : bool := true.

(** A program that never stops the process. *)
Definition always_returns {A : Type} (m : Prog A) : Prop :=
  forall w, returned (m w).1 = true.

(** ** The shared CSV writer under concurrent appends

    [csv.Writer.Write] puts the fields of a record into the buffer of the
    writer one after the other. Every goroutine of [main] calls it on the
    same writer (line 155), and the program takes no lock and uses no
    channel around the call: the only synchronisation is the wait group.
    An append is therefore a sequence of steps, one per field, and the
    steps of different goroutines may alternate in any way. *)

Module Writer.













End Writer.

(** ** Sample data for the worked examples *)

Module Sample.

Definition cat : File := mkFile "id-cat" "cat.png" "image/png".
Definition dog : File := mkFile "id-dog" "dog.jpg" "image/jpeg".

Definition cat_bytes : bytes := [Byte.x89; Byte.x50; Byte.x4e; Byte.x47].
Definition dog_bytes : bytes := [Byte.xff; Byte.xd8].

Definition downloads (id : string) : Download :=
  if decide (id = "id-cat") then DownloadResp 200 (Ok cat_bytes)
  else if decide (id = "id-dog") then DownloadResp 200 (Ok dog_bytes)
  else DownloadResp 404 (Ok []).

Definition getenv (key : string) : string :=
  if decide (key = "PROJECT_ID") then "demo"
  else if decide (key = "GOOGLE_CREDENTIALS") then "client.json"
  else "".

Definition builtin : Template := fun name => Ok ("Describe the image " +:+ name).

(** Every service answers, nothing fails; the goroutines finish in the
    reverse of the listing order. *)
Definition env : Env :=
  {| os_Getenv := getenv;
     os_ReadFile := fun _ => Ok [];
     google_ConfigFromJSON := fun _ => None;
     getClient := None;
     drive_NewService := None;
     genai_NewClient := None;
     os_Create := fun _ => None;
     drive_List := fun _ => Ok [Some cat; None; Some dog];
     drive_Download := downloads;
     fs_fault := fun _ => None;
     storage_NewClient := None;
     gcs_fault := fun _ => None;
     template_ParseFiles := fun _ => Err "template: unexpected EOF";
     template_builtin := Ok builtin;
     genai_GenerateContent := fun _ _ _ _ => Ok "a picture";
     csv_fault := fun _ => None;
     go_schedule := reverse |}.


Definition with_NewClient (c : error) (E : Env) : Env :=
  mkEnv (os_Getenv E) (os_ReadFile E) (google_ConfigFromJSON E) (getClient E)
    (drive_NewService E) (genai_NewClient E) (os_Create E) (drive_List E)
    (drive_Download E) (fs_fault E) c (gcs_fault E)
    (template_ParseFiles E) (template_builtin E) (genai_GenerateContent E)
    (csv_fault E) (go_schedule E).

Definition with_GenerateContent
    (g : string -> bytes -> string -> string -> Result string) (E : Env) : Env :=
  mkEnv (os_Getenv E) (os_ReadFile E) (google_ConfigFromJSON E) (getClient E)
    (drive_NewService E) (genai_NewClient E) (os_Create E) (drive_List E)
    (drive_Download E) (fs_fault E) (storage_NewClient E) (gcs_fault E)
    (template_ParseFiles E) (template_builtin E) g
    (csv_fault E) (go_schedule E).

Definition with_gcs_fault (f : GcsOp -> error) (E : Env) : Env :=
  mkEnv (os_Getenv E) (os_ReadFile E) (google_ConfigFromJSON E) (getClient E)
    (drive_NewService E) (genai_NewClient E) (os_Create E) (drive_List E)
    (drive_Download E) (fs_fault E) (storage_NewClient E) f
    (template_ParseFiles E) (template_builtin E) (genai_GenerateContent E)
    (csv_fault E) (go_schedule E).



Definition with_List (l : string -> Result (list (option File))) (E : Env) : Env :=
  mkEnv (os_Getenv E) (os_ReadFile E) (google_ConfigFromJSON E) (getClient E)
    (drive_NewService E) (genai_NewClient E) (os_Create E) l
    (drive_Download E) (fs_fault E) (storage_NewClient E) (gcs_fault E)
    (template_ParseFiles E) (template_builtin E) (genai_GenerateContent E)
    (csv_fault E) (go_schedule E).

(** The Drive listing fails. *)
Definition env_no_listing : Env :=
  with_List (fun _ => Err "googleapi: Error 404: File not found") env.

(** The folder holds no file of the wanted types. *)
Definition env_empty_folder : Env := with_List (fun _ => Ok []) env.

(** The metadata probe of the bucket fails with an error of its own. *)
Definition env_probe_fails : Env :=
  with_gcs_fault (fun op => match op with
                            | OpAttrs _ _ => Some "permission denied"
                            | _ => None
                            end) env.

(** A bucket that already holds a one-byte [cat.png]. *)
Definition world_mirrored : World :=
  mkWorld ∅ {[ ("demo-media", ("", "cat.png")) := [Byte.x00] ]} [] [].



(** The model call fails. *)
Definition env_model_fails : Env :=
  with_GenerateContent (fun _ _ _ _ => Err "quota exceeded") env.

(** The storage client cannot be created. *)
Definition env_no_storage : Env :=
  with_NewClient (Some "could not find default credentials") env.

(** The flags after [-prompt bad.tpl]; [env] parses no template file. *)
Definition custom_prompt : Globals := Flags.init [Flags.ArgPrompt "bad.tpl"].


(** The flags as [init] leaves them on an empty command line. *)
Definition defaults : Globals := Flags.init [].

(** A local folder that already holds a one-byte [cat.png]. *)
Definition world_with_cat : World :=
  mkWorld {[ "local" := {[ "cat.png" := [Byte.x00] ]} ]} ∅ [] [].

End Sample.

(** ** The credential store (auth.go)

    [getClient] reads the cached token from [token.json]; when that fails it
    runs an interactive authorisation (through the browser and a local
    callback listener, or by a pasted code) and saves the new token. The
    state is the disk, the OAuth configuration behind the [config] pointer,
    and what the process has printed and requested; the pauses of
    [time.Sleep] leave no mark on it. *)

Module Auth.

Record Token : Type := mkToken {
  AccessToken : string;
  RefreshToken : string
}.

Record Config : Type := mkConfig {
  ClientID : string;
  RedirectURL : string
}.

(** The HTTP client of [config.Client(ctx, tok)]: the configuration and
    the token it was made from. *)
Record Client : Type := mkClient {
  client_config : Config;
  client_token : option Token
}.

(** What reaches the main goroutine of the browser flow first: the local
    listener fails to start, a request arrives on the callback address
    (with its [code] parameter, empty when absent), or nothing ever does. *)
Inductive Callback : Type :=
| ListenError (e : string)
| FirstRequest (code : string)
| NoRequest.

Record Env : Type := mkEnv {
  os_Open : string -> error;              (* a failure other than a missing file *)
  os_OpenFile : string -> error;
  json_Decode : bytes -> Token * error;   (* the token as far as decoded, and the error *)
  json_Encode : Token -> bytes;           (* what the encoder leaves in the file *)
  AuthCodeURL : Config -> string;
  open_Run : string -> error;
  callback : Callback;
  fmt_Scan : Result string;
  Exchange : Config -> string -> Result Token;
  color_CyanString : string -> string
}.

Inductive Output : Type :=
| Logged (line : string)
| Printed (text : string)
| Browser (url : string)
| Replied (text : string)
| Exchanged (config : Config) (code : string).

Record World : Type := mkWorld {
  disk : gmap string bytes;
  oauth_config : Config;
  output : list Output
}.

Definition emit (o : Output) (w : World) : World :=
  mkWorld (disk w) (oauth_config w) (output w ++ [o]).

(** A call returns, stops the process ([log.Fatalf]), or waits forever. *)
Inductive Outcome (A : Type) : Type :=
| Ret (a : A)
| Fatal (msg : string)
| Blocked.
Arguments Ret {A} a.
Arguments Fatal {A} msg.
Arguments Blocked {A}.

Definition Prog (A : Type) : Type := World -> Outcome A * World.

Definition ret {A : Type} (a : A) : Prog A := fun w => (Ret a, w).

Definition bind {A B : Type} (m : Prog A) (k : A -> Prog B) : Prog B :=
  fun w =>
    match m w with
    | (Ret a, w') => k a w'
    | (Fatal msg, w') => (Fatal msg, w')
    | (Blocked, w') => (Blocked, w')
    end.

(** The line feed of the [fmt.Printf] formats. *)
Definition newline : string := String "010"%char EmptyString.

Notation "'let!' x ':=' m 'in' k" := (bind m (fun x => k))
  (at level 10, x pattern, m at level 100, k at level 200).

Definition say (o : Output) : Prog unit := fun w => (Ret tt, emit o w).

Definition log_Fatalf {A : Type} (line : string) : Prog A :=
  fun w => (Fatal line, emit (Logged line) w).

Section Code.

Context (E : Env).

(** tokenFromFile (lines 112-121): the token and the error. The token is
    [None] when the file cannot be opened; after a decoding error it is
    the token as far as it was decoded. *)
Definition tokenFromFile (file : string) : Prog (option Token * error) := fun w =>
  match os_Open E file with
  | Some e => (Ret (None, Some e), w)
  | None =>
      match disk w !! file with
      | None => (Ret (None, Some ("open " +:+ file +:+ ": no such file or directory")), w)
      | Some content =>
          let '(tok, err) := json_Decode E content in
          (Ret (Some tok, err), w)
      end
  end.

(** saveToken (lines 124-132): the file is created or truncated, and the
    error of the encoder is dropped. *)
Definition saveToken (path : string) (token : Token) : Prog unit :=
  let! _ := say (Printed ("Saving credential file to: " +:+ path +:+ newline)) in
  match os_OpenFile E path with
  | Some e => log_Fatalf ("Unable to cache oauth token: " +:+ e)
  | None => fun w =>
      (Ret tt, mkWorld (<[path := json_Encode E token]> (disk w))
                 (oauth_config w) (output w))
  end.

(** [config.Exchange(ctx, code)] on the configuration as it is now. *)
Definition config_Exchange (code : string) : Prog (Result Token) := fun w =>
  (Ret (Exchange E (oauth_config w) code), emit (Exchanged (oauth_config w) code) w).

(** getTokenFromWebLaunch (lines 37-91). *)
Definition getTokenFromWebLaunch : Prog Token :=
  let! _ := (fun w => (Ret tt, mkWorld (disk w)
                                 (mkConfig (ClientID (oauth_config w))
                                    "http://localhost:8080")
                                 (output w))) in
  let! authURL := (fun w => (Ret (AuthCodeURL E (oauth_config w)), w)) in
  let! _ := say (Logged (color_CyanString E
                   "You will now be taken to your browser for authentication")) in
  let! _ := say (Browser authURL) in
  match open_Run E authURL with
  | Some e => log_Fatalf ("unable to open browser: " +:+ e)
  | None =>
      let! _ := say (Logged ("Authentication URL: " +:+ authURL)) in
      let! _ := say (Logged "listening on :8080") in
      match callback E with
      | ListenError e => log_Fatalf e
      | NoRequest => fun w => (Blocked, w)
      | FirstRequest authCode =>
          if decide (authCode <> "") then
            let! _ := say (Replied
                        "Authentication successful. You may close this browser window.") in
            let! got := config_Exchange authCode in
            match got with
            | Err e => log_Fatalf ("Unable to retrieve token from web: " +:+ e)
            | Ok tok =>
                let! _ := say (Logged (color_CyanString E "Authentication successful")) in
                ret tok
            end
          else
            log_Fatalf ("received an error while listening for token: "
                        +:+ "no code in exchange")
      end
  end.

(** getTokenFromWeb (lines 94-109). *)
Definition getTokenFromWeb : Prog Token :=
  let! authURL := (fun w => (Ret (AuthCodeURL E (oauth_config w)), w)) in
  let! _ := say (Printed ("Go to the following link in your browser then type the "
                          +:+ "authorization code: " +:+ newline
                          +:+ authURL +:+ newline)) in
  match fmt_Scan E with
  | Err e => log_Fatalf ("Unable to read authorization code: " +:+ e)
  | Ok authCode =>
      let! got := config_Exchange authCode in
      match got with
      | Err e => log_Fatalf ("Unable to retrieve token from web: " +:+ e)
      | Ok tok => ret tok
      end
  end.

(** getClient (lines 18-34). *)
Definition getClient (manualAuth : bool) : Prog Client :=
  let tokFile := "token.json" in
  let! r := tokenFromFile tokFile in
  let! tok :=
    (match r.2 with
     | Some _ =>
         if negb manualAuth then
           let! tok := getTokenFromWebLaunch in
           let! _ := saveToken tokFile tok in
           ret (Some tok)
         else
           let! tok := getTokenFromWeb in
           let! _ := saveToken tokFile tok in
           ret (Some tok)
     | None => ret r.1
     end) in
  fun w => (Ret (mkClient (oauth_config w) tok), w).

End Code.

(** The calls of [config.Exchange] made so far. *)
Definition exchanges (w : World) : list Output :=
  List.filter (fun o => match o with Exchanged _ _ => true | _ => false end) (output w).

(** The browser launches made so far. *)
Definition launches (w : World) : list Output :=
  List.filter (fun o => match o with Browser _ => true | _ => false end) (output w).

(** Sample data: a codec that keeps the access token, a user who grants
    access in the browser, and an empty disk. *)
Definition sample_env : Env :=
  {| os_Open := fun _ => None;
     os_OpenFile := fun _ => None;
     json_Decode := fun content =>
       (mkToken (string_of_list_byte content) "", None);
     json_Encode := fun tok => list_byte_of_string (AccessToken tok);
     AuthCodeURL := fun c => "https://accounts.google.com/o/oauth2/auth?client_id="
                             +:+ ClientID c +:+ "&redirect_uri=" +:+ RedirectURL c;
     open_Run := fun _ => None;
     callback := FirstRequest "4/0AX4XfWh";
     fmt_Scan := Ok "4/0AX4XfWh";
     Exchange := fun _ code =>
       if decide (code = "4/0AX4XfWh") then Ok (mkToken "ya29.a0" "") else Err "invalid_grant";
     color_CyanString := fun s => s |}.

Definition sample_world : World :=
  mkWorld ∅ (mkConfig "drivetogcs.apps.googleusercontent.com" "urn:ietf:wg:oauth:2.0:oob") [].

(** The same environment with a user who closes the browser tab: the
    callback arrives without a code. *)
Definition sample_env_no_code : Env :=
  mkEnv (os_Open sample_env) (os_OpenFile sample_env) (json_Decode sample_env)
    (json_Encode sample_env) (AuthCodeURL sample_env) (open_Run sample_env)
    (FirstRequest "") (fmt_Scan sample_env) (Exchange sample_env)
    (color_CyanString sample_env).

End Auth.

(** * Properties *)

(** ** Reasoning about what a program leaves unchanged *)

Section Frame.

Context (R : World -> World -> Prop) `{!PreOrder R}.

Lemma preserves_ret {A : Type} (a : A) : preserves R (ret a).
Proof. intros w. simpl. reflexivity. Qed.

Lemma preserves_panic {A : Type} msg : preserves R (@panic A msg).
Proof. intros w. simpl. reflexivity. Qed.

Lemma preserves_bind {A B : Type} (m : Prog A) (k : A -> Prog B) :
  preserves R m -> (forall a, preserves R (k a)) -> preserves R (bind m k).
Proof.
  intros Hm Hk w. unfold bind. specialize (Hm w).
  destruct (m w) as [[a | msg | msg] w1]; simpl in *; try exact Hm.
  transitivity w1; [exact Hm | apply Hk].
Qed.

Lemma preserves_stat_dir E dir : preserves R (os_Stat_dir E dir).
Proof. intros w. unfold os_Stat_dir. repeat case_match; simpl; reflexivity. Qed.

Lemma preserves_stat_file E p : preserves R (os_Stat_file E p).
Proof. intros w. unfold os_Stat_file. repeat case_match; simpl; reflexivity. Qed.

Section Events.

Context (quiet : Event -> bool) `{!EventFrame R quiet}.

Lemma preserves_log line :
  quiet (EvLog line) = true -> preserves R (log_Printf line).
Proof. intros Hq w. by apply event_frame. Qed.

Lemma preserves_fatal {A : Type} line :
  quiet (EvLog line) = true -> preserves R (@log_Fatalf A line).
Proof. intros Hq w. by apply event_frame. Qed.

Lemma preserves_download E id :
  quiet (EvDownload id) = true -> preserves R (Files_Get_Download E id).
Proof. intros Hq w. by apply event_frame. Qed.

Lemma preserves_attrs E bucket p :
  quiet (EvAttrs bucket p) = true -> preserves R (Object_Attrs E bucket p).
Proof.
  intros Hq w. unfold Object_Attrs.
  repeat case_match; simpl; by apply event_frame.
Qed.

Lemma preserves_writer_write E bucket p data :
  quiet (EvUpload bucket p data) = true ->
  preserves R (Writer_Write E bucket p data).
Proof. intros Hq w. by apply event_frame. Qed.

Lemma preserves_generate E G data mime prompt :
  quiet (EvGenerate (model G) data mime prompt) = true ->
  preserves R (Models_GenerateContent E G data mime prompt).
Proof. intros Hq w. by apply event_frame. Qed.

Lemma preserves_write_file `{!FsFrame R} E p data :
  quiet (EvWriteFile p data) = true -> preserves R (os_WriteFile E p data).
Proof.
  intros Hq w. unfold os_WriteFile.
  repeat case_match; simpl; try by apply event_frame.
  transitivity (emit (EvWriteFile p data) w); [by apply event_frame |].
  apply (fs_frame _ (emit (EvWriteFile p data) w)).
Qed.

Lemma preserves_csv_write `{!RowFrame R} E record :
  quiet (EvCsvWrite record) = true -> preserves R (csvWriter_Write E record).
Proof.
  intros Hq w. unfold csvWriter_Write.
  repeat case_match; simpl; try by apply event_frame.
  transitivity (emit (EvCsvWrite record) w); [by apply event_frame |].
  apply (row_frame _ (emit (EvCsvWrite record) w)).
Qed.

End Events.

Lemma preserves_mkdir `{!FsFrame R} E dir : preserves R (os_MkdirAll E dir).
Proof.
  intros w. unfold os_MkdirAll.
  repeat case_match; simpl; try reflexivity. apply fs_frame.
Qed.

Lemma preserves_writer_close `{!StoreFrame R} E bucket p data :
  preserves R (Writer_Close E bucket p data).
Proof.
  intros w. unfold Writer_Close.
  repeat case_match; simpl; try reflexivity. apply store_frame.
Qed.

End Frame.

Lemma keeps_preorder {X : Type} (f : World -> X) : PreOrder (keeps f).
Proof.
  split; [intros w; reflexivity |].
  intros w1 w2 w3 H12 H23. unfold keeps in *. congruence.
Qed.

Lemma files_kept_preorder : PreOrder files_kept.
Proof. split; [intros w p c H; exact H | intros w1 w2 w3 H12 H23 p c H; auto]. Qed.

#[local] Existing Instance keeps_preorder.
#[local] Existing Instance files_kept_preorder.

Lemma calls_emit sel ev w :
  calls sel (emit ev w) = calls sel w ++ (if sel ev then [ev] else []).
Proof. unfold calls. simpl. rewrite List.filter_app. simpl. by destruct (sel ev). Qed.

Lemma calls_emit_other sel ev w : sel ev = false -> calls sel (emit ev w) = calls sel w.
Proof. intros H. rewrite calls_emit, H. apply app_nil_r. Qed.

Lemma calls_add_row sel record w : calls sel (add_row record w) = calls sel w.
Proof. reflexivity. Qed.

Lemma calls_set_bucket_store sel st w : calls sel (set_bucket_store st w) = calls sel w.
Proof. reflexivity. Qed.

(** The relations used below and what they tolerate. *)

#[local] Instance rows_events : EventFrame (keeps csv_rows) any_event.
Proof. by intros ev w _. Qed.
#[local] Instance rows_fs : FsFrame (keeps csv_rows).
Proof. by intros fs w. Qed.
#[local] Instance rows_store : StoreFrame (keeps csv_rows).
Proof. by intros st w. Qed.

#[local] Instance fs_events : EventFrame (keeps local_fs) any_event.
Proof. by intros ev w _. Qed.
#[local] Instance fs_store : StoreFrame (keeps local_fs).
Proof. by intros st w. Qed.
#[local] Instance fs_rows : RowFrame (keeps local_fs).
Proof. by intros record w. Qed.

#[local] Instance calls_events sel :
  EventFrame (keeps (calls sel)) (fun ev => negb (sel ev)).
Proof.
  intros ev w Hq. unfold keeps. apply calls_emit_other.
  by destruct (sel ev).
Qed.
#[local] Instance calls_fs sel : FsFrame (keeps (calls sel)).
Proof. by intros fs w. Qed.
#[local] Instance calls_store sel : StoreFrame (keeps (calls sel)).
Proof. by intros st w. Qed.
#[local] Instance calls_rows sel : RowFrame (keeps (calls sel)).
Proof. by intros record w. Qed.

(** Peeling one construct of a program off a [preserves] goal. *)
Ltac frame_step quiet :=
  match goal with
  | |- preserves _ (bind _ _) => apply preserves_bind; [ typeclasses eauto | | intros ? ]
  | |- preserves _ (ret _) => apply preserves_ret; typeclasses eauto
  | |- preserves _ (panic _) => apply preserves_panic; typeclasses eauto
  | |- preserves _ (log_Printf _) => apply (preserves_log _ quiet); reflexivity
  | |- preserves _ (log_Fatalf _) => apply (preserves_fatal _ quiet); reflexivity
  | |- preserves _ (Files_Get_Download _ _) => apply (preserves_download _ quiet); reflexivity
  | |- preserves _ (Object_Attrs _ _ _) => apply (preserves_attrs _ quiet); reflexivity
  | |- preserves _ (Writer_Write _ _ _ _) => apply (preserves_writer_write _ quiet); reflexivity
  | |- preserves _ (Models_GenerateContent _ _ _ _ _) =>
      apply (preserves_generate _ quiet); reflexivity
  | |- preserves _ (os_WriteFile _ _ _) => apply (preserves_write_file _ quiet); reflexivity
  | |- preserves _ (csvWriter_Write _ _) => apply (preserves_csv_write _ quiet); reflexivity
  | |- preserves _ (os_Stat_dir _ _) => apply preserves_stat_dir; typeclasses eauto
  | |- preserves _ (os_Stat_file _ _) => apply preserves_stat_file; typeclasses eauto
  | |- preserves _ (os_MkdirAll _ _) => apply preserves_mkdir; typeclasses eauto
  | |- preserves _ (Writer_Close _ _ _ _) => apply preserves_writer_close; typeclasses eauto
  | |- preserves _ (match ?x with _ => _ end) => destruct x
  end.

Ltac frame quiet := repeat frame_step quiet.

Section PipelineFrames.

Context (E : Env) (G : Globals).

Lemma getFileBytes_keeps_rows file : preserves (keeps csv_rows) (getFileBytes E G file).
Proof. unfold getFileBytes, ensure_local_folder. frame any_event. Qed.

Lemma uploadFileToGCS_keeps_rows bucket folder name data override :
  preserves (keeps csv_rows) (uploadFileToGCS E bucket folder name data override).
Proof. unfold uploadFileToGCS, existence_check, put_object. frame any_event. Qed.

Lemma describe_bytes_keeps_rows file data n :
  preserves (keeps csv_rows) (describe_bytes E G file data n).
Proof. unfold describe_bytes, select_template. frame any_event. Qed.

Lemma describe_keeps_rows file : preserves (keeps csv_rows) (describe E G file).
Proof.
  unfold describe. frame any_event;
    auto using getFileBytes_keeps_rows, uploadFileToGCS_keeps_rows,
      describe_bytes_keeps_rows.
Qed.

End PipelineFrames.

(** ** Programs that cannot stop the process *)

Lemma always_returns_inv {A : Type} (m : Prog A) w :
  always_returns m -> exists a w', m w = (Ret a, w').
Proof.
  intros H. specialize (H w). destruct (m w) as [[a | msg | msg] w'];
    simpl in H; try discriminate. eauto.
Qed.

Lemma always_returns_ret {A : Type} (a : A) : always_returns (ret a).
Proof. by intros w. Qed.

Lemma always_returns_bind {A B : Type} (m : Prog A) (k : A -> Prog B) :
  always_returns m -> (forall a, always_returns (k a)) -> always_returns (bind m k).
Proof.
  intros Hm Hk w. destruct (always_returns_inv m w Hm) as (a & w' & Heq).
  unfold bind. rewrite Heq. apply Hk.
Qed.

Lemma always_returns_log line : always_returns (log_Printf line).
Proof. by intros w. Qed.

Lemma always_returns_attrs E bucket p : always_returns (Object_Attrs E bucket p).
Proof. intros w. unfold Object_Attrs. by repeat case_match. Qed.

Lemma always_returns_writer_write E bucket p data :
  always_returns (Writer_Write E bucket p data).
Proof. by intros w. Qed.

Lemma always_returns_writer_close E bucket p data :
  always_returns (Writer_Close E bucket p data).
Proof. intros w. unfold Writer_Close. by repeat case_match. Qed.

Lemma always_returns_csv_write E record : always_returns (csvWriter_Write E record).
Proof. intros w. unfold csvWriter_Write. by repeat case_match. Qed.

Ltac returns_step :=
  match goal with
  | |- always_returns (bind _ _) => apply always_returns_bind; [ | intros ? ]
  | |- always_returns (ret _) => apply always_returns_ret
  | |- always_returns (log_Printf _) => apply always_returns_log
  | |- always_returns (Object_Attrs _ _ _) => apply always_returns_attrs
  | |- always_returns (Writer_Write _ _ _ _) => apply always_returns_writer_write
  | |- always_returns (Writer_Close _ _ _ _) => apply always_returns_writer_close
  | |- always_returns (csvWriter_Write _ _) => apply always_returns_csv_write
  | |- always_returns (match ?x with _ => _ end) => destruct x
  end.

(** The upload never stops the process: every failure is a returned error. *)
Lemma uploadFileToGCS_returns E bucket folder name data override :
  always_returns (uploadFileToGCS E bucket folder name data override).
Proof. unfold uploadFileToGCS, existence_check, put_object. repeat returns_step. Qed.

(** ** The rows a run appends *)

Section Rows.

Context (E : Env) (G : Globals).

(** What the goroutine does after [describe] has returned [r]. *)
Lemma task_after_describe file w r w1 :
  describe E G file w = (Ret r, w1) ->
  exists w',
    task E G file w = (Ret tt, w') /\
    csv_rows w' = csv_rows w ++ csv_accepts E (make_record file r) /\
    local_fs w' = local_fs w1 /\
    bucket_store w' = bucket_store w1 /\
    calls is_generate w' = calls is_generate w1.
Proof.
  intros Hd.
  pose proof (describe_keeps_rows E G file w) as Hrows.
  rewrite Hd in Hrows. unfold keeps in Hrows. simpl in Hrows.
  unfold task, bind. rewrite Hd.
  unfold csvWriter_Write, csv_accepts.
  destruct (csv_fault E (make_record file r)) as [e |];
    destruct r.2 as [e' |]; simpl;
    eexists; (split; [reflexivity |]); simpl;
    rewrite ?app_nil_r, ?Hrows;
    repeat first [rewrite calls_add_row | rewrite calls_emit_other by reflexivity];
    done.
Qed.



Lemma run_tasks_cons file rest w w1 :
  task E G file w = (Ret tt, w1) ->
  run_tasks E G (file :: rest) w = run_tasks E G rest w1.
Proof. intros Ht. simpl. unfold bind. by rewrite Ht. Qed.





Lemma spawned_count fileList : len (spawned G fileList) = specified_row_count G fileList.
Proof.
  unfold spawned, fileCount, specified_row_count, len.
  rewrite length_take.
  destruct (maxFiles G >? 0) eqn:Hpos; simpl; [| lia].
  destruct (maxFiles G <? Z.of_nat (length fileList)) eqn:Hlt; lia.
Qed.

End Rows.

(** ** The shared writer *)

Section WriterFacts.

Import Writer.











End WriterFacts.

(** ** The command line *)

Lemma store_mimeTypes c a :
  mimeTypes (Flags.vars (Flags.store c a)) = mimeTypes (Flags.vars c).
Proof. by destruct a. Qed.

Lemma flag_Parse_mimeTypes args c :
  mimeTypes (Flags.vars (Flags.flag_Parse args c)) = mimeTypes (Flags.vars c).
Proof.
  unfold Flags.flag_Parse. revert c.
  induction args as [| a args IH]; intros c; simpl; [done |].
  by rewrite IH, store_mimeTypes.
Qed.

(** ** The download *)

Lemma local_file_emit ev w p : local_file (emit ev w) p = local_file w p.
Proof. reflexivity. Qed.

Lemma local_file_mkdir w dir p :
  local_fs w !! dir = None ->
  local_file (set_local_fs (<[dir := ∅]> (local_fs w)) w) p = local_file w p.
Proof.
  intros Hdir. unfold local_file. simpl.
  destruct (decide (dir = p.1)) as [<- | Hne].
  - by rewrite lookup_insert_eq, Hdir.
  - by rewrite lookup_insert_ne.
Qed.

Lemma local_file_write w p entries data q :
  local_fs w !! p.1 = Some entries ->
  local_file (set_local_fs (<[p.1 := <[p.2 := data]> entries]> (local_fs w)) w) q =
    if decide (q = p) then Some data else local_file w q.
Proof.
  intros Hdir. unfold local_file. simpl.
  destruct (decide (q = p)) as [-> | Hne].
  - rewrite lookup_insert_eq. simpl. by rewrite lookup_insert_eq.
  - destruct (decide (p.1 = q.1)) as [Heq | Hdirne].
    + rewrite <- Heq, lookup_insert_eq, Hdir. simpl.
      rewrite lookup_insert_ne; [done |].
      intros Hname. apply Hne. destruct p, q; simpl in *; congruence.
    + by rewrite lookup_insert_ne.
Qed.

Section Download.

Context (E : Env) (G : Globals).


(** A request that fails outright stops the process. *)
Lemma getFileBytes_request_error file w e :
  drive_Download E (Id file) = DownloadErr e ->
  getFileBytes E G file w =
    (Fatal ("Error downloading file: " +:+ e),
     emit (EvLog ("Error downloading file: " +:+ e)) (emit (EvDownload (Id file)) w)).
Proof.
  intros Hresp. unfold getFileBytes, bind, Files_Get_Download. by rewrite Hresp.
Qed.

(** Creating the folder touches no file; when it reports no error and
    [os.Stat] works on the folder, the folder exists afterwards. *)
Lemma ensure_local_folder_spec w :
  exists mk wm,
    ensure_local_folder E G w = (Ret mk, wm) /\
    (forall q, local_file wm q = local_file w q) /\
    (mk = None ->
     fs_fault E (OpStatDir (localFolderName G)) = None ->
     exists entries, local_fs wm !! localFolderName G = Some entries).
Proof.
  unfold ensure_local_folder, bind, os_Stat_dir, os_MkdirAll.
  destruct (fs_fault E (OpStatDir (localFolderName G))) as [e |] eqn:Hsd.
  { eexists _, _. split; [reflexivity |]. split; [done | discriminate]. }
  destruct (local_fs w !! localFolderName G) as [entries |] eqn:Hdir.
  { eexists _, _. split; [reflexivity |]. split; [done |].
    intros _ _. exists entries. exact Hdir. }
  cbn [os_IsNotExist].
  destruct (fs_fault E (OpMkdirAll (localFolderName G))) as [e |].
  { eexists _, _. split; [reflexivity |]. split; [done | discriminate]. }
  rewrite Hdir.
  eexists _, _. split; [reflexivity |]. split.
  - intros q. by apply local_file_mkdir.
  - intros _ _. cbn. rewrite lookup_insert_eq. eauto.
Qed.

(** The cache hit: the file is there and [os.Stat] says so. *)
Lemma getFileBytes_cache_hit file w b old :
  let p := filepath_Join (localFolderName G) (Name file) in
  drive_Download E (Id file) = DownloadResp http_StatusOK (Ok b) ->
  fs_fault E (OpStatFile p) = None ->
  local_file w p = Some old ->
  getFileBytes E G file w =
    (Ret (Ok b),
     emit (EvLog ("File '" +:+ path_text p +:+ "' exists locally, skipping write."))
       (emit (EvDownload (Id file)) w)).
Proof.
  intros p Hresp Hstat Hold.
  assert (Hdir : exists entries, local_fs w !! localFolderName G = Some entries).
  { unfold local_file in Hold. simpl in Hold.
    destruct (local_fs w !! localFolderName G); [eauto | discriminate]. }
  destruct Hdir as [entries Hdir].
  unfold getFileBytes, ensure_local_folder, bind, Files_Get_Download.
  rewrite Hresp. simpl.
  unfold os_Stat_dir. simpl. rewrite Hdir.
  destruct (fs_fault E (OpStatDir (localFolderName G))); simpl;
    unfold os_Stat_file; fold p; by rewrite Hstat, local_file_emit, Hold.
Qed.

(** What a successful download leaves behind: the request was answered
    with a 200 and a readable body, no local file was lost or changed,
    and the file of this name exists; it holds the downloaded bytes when
    it was not there before. *)
Lemma getFileBytes_ok_inv file w b w1 :
  let p := filepath_Join (localFolderName G) (Name file) in
  getFileBytes E G file w = (Ret (Ok b), w1) ->
  drive_Download E (Id file) = DownloadResp http_StatusOK (Ok b) /\
  files_kept w w1 /\
  (exists c, local_file w1 p = Some c) /\
  (local_file w p = None -> local_file w1 p = Some b).
Proof.
  intros p. unfold getFileBytes, bind, Files_Get_Download.
  destruct (drive_Download E (Id file)) as [e | status body]; [discriminate |].
  destruct (status =? http_StatusOK) eqn:Hst; simpl; [| discriminate].
  apply Z.eqb_eq in Hst. subst status.
  destruct body as [fileBytes | e]; [| discriminate].
  set (w0 := emit (EvDownload (Id file)) w).
  destruct (ensure_local_folder_spec w0) as (mk & wm & Hmk & Hsame0 & Hdir).
  assert (Hsame : forall q, local_file wm q = local_file w q)
    by (intros q; by rewrite Hsame0).
  clear Hsame0. rewrite Hmk.
  destruct mk as [e |]; [discriminate |].
  unfold os_Stat_file. fold p.
  destruct (fs_fault E (OpStatFile p)) as [e |]; [discriminate |].
  destruct (local_file wm p) as [c |] eqn:Hfile; simpl.
  - intros [= <- <-]. split; [done |]. split; [| split].
    + intros q c' Hq. by rewrite local_file_emit, Hsame.
    + exists c. by rewrite local_file_emit.
    + intros Hnone. rewrite Hsame in Hfile. congruence.
  - unfold os_WriteFile. simpl.
    destruct (fs_fault E (OpWriteFile p)) as [e |]; [discriminate |].
    destruct (local_fs wm !! localFolderName G) as [entries |] eqn:Hentries;
      [| discriminate].
    intros [= <- <-]. split; [done |].
    assert (Hlook : forall q,
      local_file
        (set_local_fs
           (<[localFolderName G := <[Name file := fileBytes]> entries]> (local_fs wm))
           (emit (EvWriteFile p fileBytes)
              (emit (EvLog ("writing " +:+ Name file +:+ " ...")) wm))) q =
      if decide (q = p) then Some fileBytes else local_file w q).
    { intros q.
      pose proof (local_file_write wm p entries fileBytes q Hentries) as Hw.
      simpl in Hw. rewrite <- Hsame.
      unfold local_file in *. simpl in *. exact Hw. }
    split; [| split].
    + intros q c' Hq. rewrite Hlook.
      destruct (decide (q = p)) as [-> | _]; [| done].
      rewrite Hsame in Hfile. congruence.
    + exists fileBytes. rewrite Hlook. by destruct (decide (p = p)).
    + intros _. rewrite Hlook. by destruct (decide (p = p)).
Qed.

End Download.

(** ** The description *)

Section Describe.

Context (E : Env) (G : Globals).

Lemma describe_download_failed file w msg w1 :
  getFileBytes E G file w = (Ret (Err msg), w1) ->
  describe E G file w = (Ret ("", 0, Some msg), w1).
Proof. intros Hget. unfold describe, bind. by rewrite Hget. Qed.

Lemma describe_download_fatal file w msg w1 :
  getFileBytes E G file w = (Fatal msg, w1) ->
  describe E G file w = (Fatal msg, w1) /\ task E G file w = (Fatal msg, w1).
Proof.
  intros Hget.
  assert (Hd : describe E G file w = (Fatal msg, w1))
    by (unfold describe, bind; by rewrite Hget).
  split; [done |]. unfold task, bind. by rewrite Hd.
Qed.

(** After a successful download [describe] logs the size, calls the
    upload with the downloaded bytes, logs its failure if any, and goes
    on to the description with the same bytes and their length. *)
Lemma describe_after_download file w b w1 :
  getFileBytes E G file w = (Ret (Ok b), w1) ->
  exists uerr w2,
    uploadFileToGCS E (gcsBucket G) (gcsFolderPath G) (Name file) b
      (alwaysUploadToGCS G)
      (emit (EvLog ("Obtained file bytes " +:+ Name file +:+ " ("
                    +:+ fmt_d (len b) +:+ ")")) w1) = (Ret uerr, w2) /\
    describe E G file w =
      describe_bytes E G file b (len b)
        (match uerr with
         | Some _ => emit (EvLog "Unable to upload to GCS") w2
         | None => w2
         end).
Proof.
  intros Hget.
  destruct (always_returns_inv _
              (emit (EvLog ("Obtained file bytes " +:+ Name file +:+ " ("
                            +:+ fmt_d (len b) +:+ ")")) w1)
              (uploadFileToGCS_returns E (gcsBucket G) (gcsFolderPath G)
                 (Name file) b (alwaysUploadToGCS G)))
    as (uerr & w2 & Hup).
  exists uerr, w2. split; [done |].
  unfold describe, bind. rewrite Hget. unfold log_Printf at 1. rewrite Hup.
  by destruct uerr.
Qed.

Lemma select_template_resolves tmpl w :
  resolves E G tmpl -> select_template E G w = (Ret (Ok tmpl), w).
Proof.
  unfold select_template.
  intros [[Hloc Hparse] | [Hloc Hbuiltin]]; case_decide; try done.
  - by rewrite Hparse.
  - by rewrite Hbuiltin.
Qed.


(** The model call fails: logged, and an empty description with size 0
    and no error is returned. *)
Lemma describe_bytes_model_failure file b n w tmpl prompt e :
  createDescription G = true ->
  resolves E G tmpl ->
  tmpl (Name file) = Ok prompt ->
  genai_GenerateContent E (model G) b (MimeType file) prompt = Err e ->
  describe_bytes E G file b n w =
    (Ret ("", 0, None),
     emit (EvLog ("prompt: " +:+ prompt))
       (emit (EvLog ("unable to generate content: " +:+ e))
          (emit (EvGenerate (model G) b (MimeType file) prompt)
             (emit (EvLog ("Describing " +:+ Name file +:+ " ...")) w)))).
Proof.
  intros Hon Hres Hexec Hgen. unfold describe_bytes, bind. rewrite Hon.
  unfold log_Printf at 1. rewrite (select_template_resolves tmpl _ Hres).
  rewrite Hexec. unfold Models_GenerateContent. by rewrite Hgen.
Qed.

(** The custom template does not parse: the error is returned. *)
Lemma describe_bytes_template_failure file b n w e :
  createDescription G = true ->
  customPromptLocation G <> "" ->
  template_ParseFiles E (customPromptLocation G) = Err e ->
  describe_bytes E G file b n w =
    (Ret ("", 0, Some ("failed to parse custom template: " +:+ e)),
     emit (EvLog ("Describing " +:+ Name file +:+ " ...")) w).
Proof.
  intros Hon Hloc Hparse. unfold describe_bytes, bind. rewrite Hon.
  unfold log_Printf at 1. unfold select_template.
  case_decide; [| done]. by rewrite Hparse.
Qed.


End Describe.

(** ** One file in a run *)

Lemma fmt_d_0 : fmt_d 0 = "0".
Proof. reflexivity. Qed.

Section OneFile.

Context (E : Env) (G : Globals).

(** The goroutine of a file on which [describe] returns: one record is
    handed to the writer and the run goes on with the next file. *)
Lemma task_continues file rest w r w1 :
  describe E G file w = (Ret r, w1) ->
  exists w',
    task E G file w = (Ret tt, w') /\
    csv_rows w' = csv_rows w ++ csv_accepts E (make_record file r) /\
    calls is_generate w' = calls is_generate w1 /\
    run_tasks E G (file :: rest) w = run_tasks E G rest w'.
Proof.
  intros Hd.
  destruct (task_after_describe E G _ _ _ _ Hd) as (w' & Ht & Hrows & _ & _ & Hgen).
  exists w'. repeat split; try done. by apply run_tasks_cons.
Qed.

(** The model call fails after a successful download. *)
Lemma describe_model_failure file w b w1 tmpl prompt e :
  getFileBytes E G file w = (Ret (Ok b), w1) ->
  createDescription G = true ->
  resolves E G tmpl ->
  tmpl (Name file) = Ok prompt ->
  genai_GenerateContent E (model G) b (MimeType file) prompt = Err e ->
  exists uerr w2 w3,
    uploadFileToGCS E (gcsBucket G) (gcsFolderPath G) (Name file) b
      (alwaysUploadToGCS G)
      (emit (EvLog ("Obtained file bytes " +:+ Name file +:+ " ("
                    +:+ fmt_d (len b) +:+ ")")) w1) = (Ret uerr, w2) /\
    describe E G file w = (Ret ("", 0, None), w3).
Proof.
  intros Hget Hon Hres Hexec Hgen.
  destruct (describe_after_download E G _ _ _ _ Hget) as (uerr & w2 & Hup & Hd).
  exists uerr, w2. eexists. split; [exact Hup |].
  rewrite Hd. by eapply describe_bytes_model_failure.
Qed.

(** The custom template does not parse after a successful download. *)
Lemma describe_template_failure file w b w1 e :
  getFileBytes E G file w = (Ret (Ok b), w1) ->
  createDescription G = true ->
  customPromptLocation G <> "" ->
  template_ParseFiles E (customPromptLocation G) = Err e ->
  exists w3,
    describe E G file w =
      (Ret ("", 0, Some ("failed to parse custom template: " +:+ e)), w3).
Proof.
  intros Hget Hon Hloc Hparse.
  destruct (describe_after_download E G _ _ _ _ Hget) as (uerr & w2 & Hup & Hd).
  eexists. rewrite Hd. by apply describe_bytes_template_failure.
Qed.

(** A Drive request that fails outright stops the run at that file: the
    rows are as they were, and the remaining files are not processed. *)
Lemma run_tasks_request_error file rest w e :
  drive_Download E (Id file) = DownloadErr e ->
  exists w',
    run_tasks E G (file :: rest) w = (Fatal ("Error downloading file: " +:+ e), w') /\
    csv_rows w' = csv_rows w /\
    calls is_generate w' = calls is_generate w.
Proof.
  intros Hresp.
  pose proof (getFileBytes_request_error E G file w e Hresp) as Hget.
  destruct (describe_download_fatal E G _ _ _ _ Hget) as [_ Ht].
  eexists. split.
  - simpl. unfold bind. rewrite Ht. reflexivity.
  - split; [done |]. by rewrite !calls_emit_other.
Qed.

End OneFile.

(** ** The mirror upload *)

Section Upload.

Context (E : Env).

Lemma Object_Attrs_world bucket p w r w0 :
  Object_Attrs E bucket p w = (Ret r, w0) -> w0 = emit (EvAttrs bucket p) w.
Proof. unfold Object_Attrs. repeat case_match; by intros [= _ <-]. Qed.

(** The upload proper always calls the object writer, and never probes. *)
Lemma put_object_calls bucket p data w :
  calls is_upload (put_object E bucket p data w).2 =
    calls is_upload w ++ [EvUpload bucket p data] /\
  calls is_attrs (put_object E bucket p data w).2 = calls is_attrs w.
Proof.
  unfold put_object, bind, Writer_Write, Writer_Close.
  destruct (gcs_fault E (OpWrite bucket p));
    [| destruct (gcs_fault E (OpClose bucket p))]; simpl;
    repeat first [rewrite calls_emit_other by reflexivity
                 | rewrite calls_set_bucket_store | rewrite calls_emit];
    done.
Qed.

(** When the write and the close succeed, the object holds the bytes. *)
Lemma put_object_success bucket p data w :
  gcs_fault E (OpWrite bucket p) = None ->
  gcs_fault E (OpClose bucket p) = None ->
  (put_object E bucket p data w).1 = Ret None /\
  bucket_store (put_object E bucket p data w).2 !! (bucket, p) = Some data.
Proof.
  intros Hw Hc. unfold put_object, bind, Writer_Write, Writer_Close.
  rewrite Hw, Hc. simpl. split; [done |]. apply lookup_insert_eq.
Qed.

Lemma upload_override bucket folder name data w :
  storage_NewClient E = None ->
  uploadFileToGCS E bucket folder name data true w =
    put_object E bucket (filepath_Join folder name) data w.
Proof. intros Hc. unfold uploadFileToGCS. by rewrite Hc. Qed.

Lemma upload_probe bucket folder name data w r w0 :
  storage_NewClient E = None ->
  Object_Attrs E bucket (filepath_Join folder name) w = (Ret r, w0) ->
  uploadFileToGCS E bucket folder name data false w =
    match r with
    | AttrsFound =>
        (Ret None,
         emit (EvLog ("File '" +:+ path_text (filepath_Join folder name)
                      +:+ "' already exists in GCS " +:+ bucket
                      +:+ ". Skipping upload.")) w0)
    | AttrsNotExist => put_object E bucket (filepath_Join folder name) data w0
    | AttrsErr e => (Ret (Some ("failed to check object existence: " +:+ e)), w0)
    end.
Proof.
  intros Hc Hprobe. unfold uploadFileToGCS. rewrite Hc.
  unfold existence_check, bind. simpl. rewrite Hprobe. by destruct r.
Qed.

End Upload.

(** ** Description switched off *)


(** ** The local folder over a run *)

#[local] Instance files_kept_events : EventFrame files_kept any_event.
Proof. by intros ev w _ p c H. Qed.
#[local] Instance files_kept_store : StoreFrame files_kept.
Proof. by intros st w p c H. Qed.
#[local] Instance files_kept_rows : RowFrame files_kept.
Proof. by intros record w p c H. Qed.

Section LocalFolder.

Context (E : Env) (G : Globals).

(** [getFileBytes] writes a file only where [os.Stat] found none: however
    it ends, every file that was there is still there, unchanged. *)
Lemma getFileBytes_files_kept file : preserves files_kept (getFileBytes E G file).
Proof.
  intros w. unfold getFileBytes, bind, Files_Get_Download.
  destruct (drive_Download E (Id file)) as [e | status body]; [by intros p c H |].
  destruct (status =? http_StatusOK); simpl; [| by intros p c H].
  destruct body as [fileBytes | e]; [| by intros p c H].
  destruct (ensure_local_folder_spec E G (emit (EvDownload (Id file)) w))
    as (mk & wm & Hmk & Hsame & _).
  rewrite Hmk.
  assert (Hkept : files_kept w wm).
  { intros q c Hq. by rewrite Hsame. }
  destruct mk as [e |]; [exact Hkept |].
  unfold os_Stat_file.
  set (p := filepath_Join (localFolderName G) (Name file)).
  destruct (fs_fault E (OpStatFile p)) as [e |]; [exact Hkept |].
  destruct (local_file wm p) as [c |] eqn:Hfile; simpl; [exact Hkept |].
  unfold os_WriteFile. simpl.
  destruct (fs_fault E (OpWriteFile p)) as [e |]; [exact Hkept |].
  destruct (local_fs wm !! localFolderName G) as [entries |] eqn:Hentries;
    [| exact Hkept].
  intros q c Hq. apply Hkept in Hq.
  destruct (decide (q = p)) as [-> | Hne]; [congruence |].
  pose proof (local_file_write wm p entries fileBytes q Hentries) as Hw.
  rewrite decide_False in Hw by done.
  rewrite <- Hq, <- Hw. reflexivity.
Qed.

Lemma uploadFileToGCS_keeps_fs bucket folder name data override :
  preserves (keeps local_fs) (uploadFileToGCS E bucket folder name data override).
Proof. unfold uploadFileToGCS, existence_check, put_object. frame any_event. Qed.







End LocalFolder.

(** * The properties stated by the specification *)







(** C3. The value given to the mime-types flag never reaches the listing:
    [init] splits the flag's cell before [flag.Parse] has stored the
    command line in it, so whatever the arguments are, the query is built
    from the two default types. With [-folder F -mime-types image/webp] the
    Drive query still asks for JPEG or PNG files. *)
Theorem C3_mime_types_flag_is_read_before_parse :
  (forall args, mimeTypes (Flags.init args) = ["image/jpeg"; "image/png"]) /\
  (let args := [Flags.ArgFolder "F"; Flags.ArgMimeTypes "image/webp"] in
   listFiles_query (sourceFolderID (Flags.init args)) (mimeTypes (Flags.init args)) =
     "'F' in parents and (mimeType = 'image/jpeg' or mimeType = 'image/png')" /\
   calls is_list (program Sample.env args empty_world).2 =
     [EvList "'F' in parents and (mimeType = 'image/jpeg' or mimeType = 'image/png')"]).
Proof.
  split.
  - intros args. unfold Flags.init. by rewrite flag_Parse_mimeTypes.
  - split; vm_compute; reflexivity.
Qed.




(** C5. (a) When the model call of a file fails, [describe] returns an empty
    description and no error: the record of the file has the empty
    description, and the run goes on. (b) When the custom prompt template
    does not parse, [describe] returns the error: the record of the file
    has the error text as description; the rows appended before it stay as
    they are and the run goes on with the remaining files. *)
Theorem C5_model_failure_is_silent_template_failure_is_not E G file rest w b w1 :
  getFileBytes E G file w = (Ret (Ok b), w1) ->
  createDescription G = true ->
  (forall tmpl prompt e,
     resolves E G tmpl ->
     tmpl (Name file) = Ok prompt ->
     genai_GenerateContent E (model G) b (MimeType file) prompt = Err e ->
     exists w3 w',
       describe E G file w = (Ret ("", 0, None), w3) /\
       task E G file w = (Ret tt, w') /\
       csv_rows w' = csv_rows w ++
         csv_accepts E [Name file; "0"; MimeType file; Id file; ""] /\
       run_tasks E G (file :: rest) w = run_tasks E G rest w') /\
  (forall e,
     customPromptLocation G <> "" ->
     template_ParseFiles E (customPromptLocation G) = Err e ->
     exists w3 w',
       describe E G file w =
         (Ret ("", 0, Some ("failed to parse custom template: " +:+ e)), w3) /\
       task E G file w = (Ret tt, w') /\
       csv_rows w' = csv_rows w ++
         csv_accepts E [Name file; "0"; MimeType file; Id file;
                        "Error: failed to parse custom template: " +:+ e] /\
       run_tasks E G (file :: rest) w = run_tasks E G rest w').
Proof.
  intros Hget Hon. split.
  - intros tmpl prompt e Hres Hexec Hgen.
    destruct (describe_model_failure E G _ _ _ _ _ _ _ Hget Hon Hres Hexec Hgen)
      as (uerr & w2 & w3 & _ & Hd).
    destruct (task_continues E G file rest _ _ _ Hd) as (w' & Ht & Hrows & _ & Hrun).
    by exists w3, w'.
  - intros e Hloc Hparse.
    destruct (describe_template_failure E G _ _ _ _ _ Hget Hon Hloc Hparse)
      as (w3 & Hd).
    destruct (task_continues E G file rest _ _ _ Hd) as (w' & Ht & Hrows & _ & Hrun).
    by exists w3, w'.
Qed.

Lemma C5_model_failure_is_silent_template_failure_is_not_witness :
  (exists w3 w',
     describe Sample.env_model_fails Sample.defaults Sample.cat empty_world =
       (Ret ("", 0, None), w3) /\
     task Sample.env_model_fails Sample.defaults Sample.cat empty_world = (Ret tt, w') /\
     csv_rows w' = csv_rows empty_world ++
       csv_accepts Sample.env_model_fails
         [Name Sample.cat; "0"; MimeType Sample.cat; Id Sample.cat; ""] /\
     run_tasks Sample.env_model_fails Sample.defaults [Sample.cat; Sample.dog] empty_world =
       run_tasks Sample.env_model_fails Sample.defaults [Sample.dog] w') /\
  (exists w3 w',
     describe Sample.env Sample.custom_prompt Sample.cat empty_world =
       (Ret ("", 0, Some ("failed to parse custom template: "
                          +:+ "template: unexpected EOF")), w3) /\
     task Sample.env Sample.custom_prompt Sample.cat empty_world = (Ret tt, w') /\
     csv_rows w' = csv_rows empty_world ++
       csv_accepts Sample.env
         [Name Sample.cat; "0"; MimeType Sample.cat; Id Sample.cat;
          "Error: failed to parse custom template: " +:+ "template: unexpected EOF"] /\
     run_tasks Sample.env Sample.custom_prompt [Sample.cat; Sample.dog] empty_world =
       run_tasks Sample.env Sample.custom_prompt [Sample.dog] w').
Proof.
  split.
  - refine (proj1 (C5_model_failure_is_silent_template_failure_is_not
                     Sample.env_model_fails Sample.defaults Sample.cat [Sample.dog]
                     empty_world Sample.cat_bytes
                     (getFileBytes Sample.env_model_fails Sample.defaults
                        Sample.cat empty_world).2 _ _)
                  Sample.builtin "Describe the image cat.png" "quota exceeded" _ _ _).
    + vm_compute. reflexivity.
    + reflexivity.
    + right. split; reflexivity.
    + reflexivity.
    + reflexivity.
  - refine (proj2 (C5_model_failure_is_silent_template_failure_is_not
                     Sample.env Sample.custom_prompt Sample.cat [Sample.dog]
                     empty_world Sample.cat_bytes
                     (getFileBytes Sample.env Sample.custom_prompt
                        Sample.cat empty_world).2 _ _)
                  "template: unexpected EOF" _ _).
    + vm_compute. reflexivity.
    + reflexivity.
    + vm_compute. discriminate.
    + reflexivity.
Defined.

(** C6, as amended. An upload call whose storage client cannot be created
    returns that failure and does nothing else. For every upload call for
    which the storage client is created. With the override flag false: when
    the probe finds the object the upload is skipped and success is
    returned; when the probe says the object does not exist the upload
    proceeds; any other probe error is returned as a failure, and nothing
    is uploaded. With the override flag true the upload is attempted
    without a probe. The upload calls the object writer, and when the write
    and the close succeed it returns success and the object holds the new
    bytes, whatever was there. *)
Theorem C6_upload_follows_the_probe E bucket folder name data w :
  let p := filepath_Join folder name in
  (forall e override,
     storage_NewClient E = Some e ->
     uploadFileToGCS E bucket folder name data override w =
       (Ret (Some ("failed to create client: " +:+ e)), w)) /\
  (storage_NewClient E = None ->
   (forall w0,
      Object_Attrs E bucket p w = (Ret AttrsFound, w0) ->
      exists w',
        uploadFileToGCS E bucket folder name data false w = (Ret None, w') /\
        bucket_store w' = bucket_store w /\
        calls is_upload w' = calls is_upload w) /\
   (forall w0,
      Object_Attrs E bucket p w = (Ret AttrsNotExist, w0) ->
      uploadFileToGCS E bucket folder name data false w =
        put_object E bucket p data w0) /\
   (forall e w0,
      Object_Attrs E bucket p w = (Ret (AttrsErr e), w0) ->
      uploadFileToGCS E bucket folder name data false w =
        (Ret (Some ("failed to check object existence: " +:+ e)), w0) /\
      bucket_store w0 = bucket_store w /\
      calls is_upload w0 = calls is_upload w) /\
   uploadFileToGCS E bucket folder name data true w = put_object E bucket p data w /\
   (forall w0,
      calls is_upload (put_object E bucket p data w0).2 =
        calls is_upload w0 ++ [EvUpload bucket p data] /\
      calls is_attrs (put_object E bucket p data w0).2 = calls is_attrs w0 /\
      (gcs_fault E (OpWrite bucket p) = None ->
       gcs_fault E (OpClose bucket p) = None ->
       (put_object E bucket p data w0).1 = Ret None /\
       bucket_store (put_object E bucket p data w0).2 !! (bucket, p) = Some data))).
Proof.
  intros p. split.
  { intros e override Hclient. unfold uploadFileToGCS. by rewrite Hclient. }
  intros Hclient. split; [| split; [| split; [| split]]].
  - intros w0 Hprobe. eexists. split.
    + by rewrite (upload_probe E _ _ _ _ _ _ _ Hclient Hprobe).
    + rewrite (Object_Attrs_world E _ _ _ _ _ Hprobe). split; [done |].
      by rewrite !calls_emit_other.
  - intros w0 Hprobe. by rewrite (upload_probe E _ _ _ _ _ _ _ Hclient Hprobe).
  - intros e w0 Hprobe. split.
    + by rewrite (upload_probe E _ _ _ _ _ _ _ Hclient Hprobe).
    + rewrite (Object_Attrs_world E _ _ _ _ _ Hprobe). split; [done |].
      by rewrite calls_emit_other.
  - by apply upload_override.
  - intros w0. split; [apply put_object_calls |]. split; [apply put_object_calls |].
    intros Hw Hc. by apply put_object_success.
Qed.

Lemma C6_upload_follows_the_probe_witness :
  let p := filepath_Join "" "cat.png" in
  uploadFileToGCS Sample.env_no_storage "demo-media" "" "cat.png" Sample.cat_bytes
    false empty_world =
    (Ret (Some ("failed to create client: " +:+ "could not find default credentials")),
     empty_world) /\
  (exists w',
     uploadFileToGCS Sample.env "demo-media" "" "cat.png" Sample.cat_bytes false
       Sample.world_mirrored = (Ret None, w') /\
     bucket_store w' = bucket_store Sample.world_mirrored /\
     calls is_upload w' = calls is_upload Sample.world_mirrored) /\
  uploadFileToGCS Sample.env "demo-media" "" "cat.png" Sample.cat_bytes false empty_world =
    put_object Sample.env "demo-media" p Sample.cat_bytes
      (emit (EvAttrs "demo-media" p) empty_world) /\
  uploadFileToGCS Sample.env_probe_fails "demo-media" "" "cat.png" Sample.cat_bytes
    false empty_world =
    (Ret (Some ("failed to check object existence: " +:+ "permission denied")),
     emit (EvAttrs "demo-media" p) empty_world) /\
  uploadFileToGCS Sample.env "demo-media" "" "cat.png" Sample.cat_bytes true
    Sample.world_mirrored =
    put_object Sample.env "demo-media" p Sample.cat_bytes Sample.world_mirrored /\
  bucket_store (put_object Sample.env "demo-media" p Sample.cat_bytes
                  Sample.world_mirrored).2 !! ("demo-media", p) = Some Sample.cat_bytes.
Proof.
  intros p.
  destruct (C6_upload_follows_the_probe Sample.env_no_storage "demo-media" ""
              "cat.png" Sample.cat_bytes empty_world) as [Hnoclient _].
  destruct (proj2 (C6_upload_follows_the_probe Sample.env "demo-media" "" "cat.png"
                     Sample.cat_bytes Sample.world_mirrored) eq_refl)
    as (Hfound & _ & _ & Hoverride & Hput).
  destruct (proj2 (C6_upload_follows_the_probe Sample.env "demo-media" "" "cat.png"
                     Sample.cat_bytes empty_world) eq_refl)
    as (_ & Habsent & _).
  destruct (proj2 (C6_upload_follows_the_probe Sample.env_probe_fails "demo-media" ""
                     "cat.png" Sample.cat_bytes empty_world) eq_refl)
    as (_ & _ & Herror & _).
  split; [| split; [| split; [| split; [| split]]]].
  - apply (Hnoclient "could not find default credentials" false). reflexivity.
  - apply (Hfound (emit (EvAttrs "demo-media" p) Sample.world_mirrored)).
    vm_compute. reflexivity.
  - apply Habsent. vm_compute. reflexivity.
  - apply (Herror "permission denied"). vm_compute. reflexivity.
  - exact Hoverride.
  - apply (Hput Sample.world_mirrored); reflexivity.
Defined.

(** C6 as stated fails for the override flag: when the storage client
    cannot be created, [uploadFileToGCS] returns that failure at once, also
    with the flag true, and the upload is not performed. *)
Lemma C6_counterexample :
  let run := uploadFileToGCS Sample.env_no_storage "demo-media" "" "cat.png"
               Sample.cat_bytes true empty_world in
  run.1 = Ret (Some "failed to create client: could not find default credentials") /\
  run.2 = empty_world /\
  calls is_upload run.2 = [].
Proof. vm_compute. repeat split. Qed.

(** C7. For every file whose name already exists in the local folder:
    however [getFileBytes] ends, the local file keeps its content; and when
    [os.Stat] reports the file and the download gives the bytes [b],
    [getFileBytes] makes the Drive request, writes nothing and returns [b],
    and [describe] then calls the upload with [b] and goes on to the
    description with [b] and its length. *)
Theorem C7_cache_hit_still_returns_the_bytes E G file w old :
  let p := filepath_Join (localFolderName G) (Name file) in
  local_file w p = Some old ->
  local_file (getFileBytes E G file w).2 p = Some old /\
  (forall b,
     drive_Download E (Id file) = DownloadResp http_StatusOK (Ok b) ->
     fs_fault E (OpStatFile p) = None ->
     exists w1 uerr w2,
       getFileBytes E G file w = (Ret (Ok b), w1) /\
       local_fs w1 = local_fs w /\
       calls is_write_file w1 = calls is_write_file w /\
       calls is_download w1 = calls is_download w ++ [EvDownload (Id file)] /\
       uploadFileToGCS E (gcsBucket G) (gcsFolderPath G) (Name file) b
         (alwaysUploadToGCS G)
         (emit (EvLog ("Obtained file bytes " +:+ Name file +:+ " ("
                       +:+ fmt_d (len b) +:+ ")")) w1) = (Ret uerr, w2) /\
       describe E G file w =
         describe_bytes E G file b (len b)
           (match uerr with
            | Some _ => emit (EvLog "Unable to upload to GCS") w2
            | None => w2
            end)).
Proof.
  intros p Hold. split.
  - by apply (getFileBytes_files_kept E G file w).
  - intros b Hresp Hstat.
    pose proof (getFileBytes_cache_hit E G file w b old Hresp Hstat Hold) as Hget.
    destruct (describe_after_download E G _ _ _ _ Hget) as (uerr & w2 & Hup & Hd).
    eexists _, uerr, w2. split; [exact Hget |].
    split; [done |]. split; [by rewrite !calls_emit_other |].
    split; [by rewrite calls_emit_other, calls_emit |]. by split.
Qed.

Lemma C7_cache_hit_still_returns_the_bytes_witness :
  let p := filepath_Join (localFolderName Sample.defaults) (Name Sample.cat) in
  local_file Sample.world_with_cat p = Some [Byte.x00] /\
  local_file
    (getFileBytes Sample.env Sample.defaults Sample.cat Sample.world_with_cat).2 p
    = Some [Byte.x00] /\
  exists w1 uerr w2,
    getFileBytes Sample.env Sample.defaults Sample.cat Sample.world_with_cat =
      (Ret (Ok Sample.cat_bytes), w1) /\
    local_fs w1 = local_fs Sample.world_with_cat /\
    calls is_write_file w1 = calls is_write_file Sample.world_with_cat /\
    calls is_download w1 =
      calls is_download Sample.world_with_cat ++ [EvDownload (Id Sample.cat)] /\
    uploadFileToGCS Sample.env (gcsBucket Sample.defaults)
      (gcsFolderPath Sample.defaults) (Name Sample.cat) Sample.cat_bytes
      (alwaysUploadToGCS Sample.defaults)
      (emit (EvLog ("Obtained file bytes " +:+ Name Sample.cat +:+ " ("
                    +:+ fmt_d (len Sample.cat_bytes) +:+ ")")) w1) = (Ret uerr, w2) /\
    describe Sample.env Sample.defaults Sample.cat Sample.world_with_cat =
      describe_bytes Sample.env Sample.defaults Sample.cat Sample.cat_bytes
        (len Sample.cat_bytes)
        (match uerr with
         | Some _ => emit (EvLog "Unable to upload to GCS") w2
         | None => w2
         end).
Proof.
  intros p.
  assert (Hold : local_file Sample.world_with_cat p = Some [Byte.x00])
    by (vm_compute; reflexivity).
  destruct (C7_cache_hit_still_returns_the_bytes Sample.env Sample.defaults
              Sample.cat Sample.world_with_cat [Byte.x00] Hold) as [Hkept Hbytes].
  split; [exact Hold |]. split; [exact Hkept |].
  apply (Hbytes Sample.cat_bytes); reflexivity.
Defined.








(** C10. When the model call of a file fails, [describe] returns the size 0
    together with the empty description, although the bytes [b] had been
    downloaded, the upload had been called with them and their length had
    been passed on to the description step: the record of the file reports
    the size 0, whatever the length of [b]. *)
Theorem C10_model_failure_reports_size_zero E G file w b w1 tmpl prompt e :
  getFileBytes E G file w = (Ret (Ok b), w1) ->
  createDescription G = true ->
  resolves E G tmpl ->
  tmpl (Name file) = Ok prompt ->
  genai_GenerateContent E (model G) b (MimeType file) prompt = Err e ->
  exists uerr w2 w3 w',
    uploadFileToGCS E (gcsBucket G) (gcsFolderPath G) (Name file) b
      (alwaysUploadToGCS G)
      (emit (EvLog ("Obtained file bytes " +:+ Name file +:+ " ("
                    +:+ fmt_d (len b) +:+ ")")) w1) = (Ret uerr, w2) /\
    describe E G file w =
      describe_bytes E G file b (len b)
        (match uerr with
         | Some _ => emit (EvLog "Unable to upload to GCS") w2
         | None => w2
         end) /\
    describe E G file w = (Ret ("", 0, None), w3) /\
    make_record file ("", 0, None) =
      [Name file; "0"; MimeType file; Id file; ""] /\
    task E G file w = (Ret tt, w') /\
    csv_rows w' = csv_rows w ++
      csv_accepts E [Name file; "0"; MimeType file; Id file; ""].
Proof.
  intros Hget Hon Hres Hexec Hgen.
  destruct (describe_after_download E G _ _ _ _ Hget) as (uerr & w2 & Hup & Hbytes).
  assert (Hd : exists w3, describe E G file w = (Ret ("", 0, None), w3)).
  { eexists. rewrite Hbytes. by eapply describe_bytes_model_failure. }
  destruct Hd as [w3 Hd].
  destruct (task_continues E G file [] _ _ _ Hd) as (w' & Ht & Hrows & _ & _).
  by exists uerr, w2, w3, w'.
Qed.

Lemma C10_model_failure_reports_size_zero_witness :
  len Sample.cat_bytes = 4 /\
  exists uerr w2 w3 w',
    uploadFileToGCS Sample.env_model_fails (gcsBucket Sample.defaults)
      (gcsFolderPath Sample.defaults) (Name Sample.cat) Sample.cat_bytes
      (alwaysUploadToGCS Sample.defaults)
      (emit (EvLog ("Obtained file bytes " +:+ Name Sample.cat +:+ " ("
                    +:+ fmt_d (len Sample.cat_bytes) +:+ ")"))
         (getFileBytes Sample.env_model_fails Sample.defaults
            Sample.cat empty_world).2) = (Ret uerr, w2) /\
    describe Sample.env_model_fails Sample.defaults Sample.cat empty_world =
      describe_bytes Sample.env_model_fails Sample.defaults Sample.cat
        Sample.cat_bytes (len Sample.cat_bytes)
        (match uerr with
         | Some _ => emit (EvLog "Unable to upload to GCS") w2
         | None => w2
         end) /\
    describe Sample.env_model_fails Sample.defaults Sample.cat empty_world =
      (Ret ("", 0, None), w3) /\
    make_record Sample.cat ("", 0, None) =
      [Name Sample.cat; "0"; MimeType Sample.cat; Id Sample.cat; ""] /\
    task Sample.env_model_fails Sample.defaults Sample.cat empty_world = (Ret tt, w') /\
    csv_rows w' = csv_rows empty_world ++
      csv_accepts Sample.env_model_fails
        [Name Sample.cat; "0"; MimeType Sample.cat; Id Sample.cat; ""].
Proof.
  split; [reflexivity |].
  apply (C10_model_failure_reports_size_zero Sample.env_model_fails Sample.defaults
           Sample.cat empty_world Sample.cat_bytes _
           Sample.builtin "Describe the image cat.png" "quota exceeded").
  - vm_compute. reflexivity.
  - reflexivity.
  - right. split; reflexivity.
  - reflexivity.
  - reflexivity.
Defined.

(** * Further properties of the code *)

(** ** Sequencing *)

Lemma bind_ret_eq {A B : Type} (m : Prog A) (k : A -> Prog B) w a w1 :
  m w = (Ret a, w1) -> bind m k w = k a w1.
Proof. intros Hm. unfold bind. by rewrite Hm. Qed.

(** A program that stops the process stops everything sequenced after it. *)
Lemma bind_stops {A B : Type} (m : Prog A) (k : A -> Prog B) w :
  returned (m w).1 = false ->
  (bind m k w).2 = (m w).2 /\ returned (bind m k w).1 = false.
Proof. unfold bind. by destruct (m w) as [[a | msg | msg] w1]. Qed.

(** ** What one goroutine sends to the outside *)

Section Outgoing.

Context (E : Env) (G : Globals).

(** After [describe], the goroutine only writes its record and logs. *)
Lemma task_calls_after_describe sel file w :
  (forall line, sel (EvLog line) = false) ->
  (forall record, sel (EvCsvWrite record) = false) ->
  calls sel (task E G file w).2 = calls sel (describe E G file w).2.
Proof.
  intros Hlog Hcsv. unfold task, bind.
  destruct (describe E G file w) as [[r | msg | msg] w1]; simpl; try done.
  unfold csvWriter_Write.
  destruct (csv_fault E (make_record file r)); destruct r.2; simpl;
    repeat first [rewrite calls_add_row | rewrite calls_emit_other by auto]; done.
Qed.

Lemma getFileBytes_keeps_uploads file :
  preserves (keeps (calls is_upload)) (getFileBytes E G file).
Proof.
  unfold getFileBytes, ensure_local_folder. frame (fun ev => negb (is_upload ev)).
Qed.

Lemma getFileBytes_keeps_generate file :
  preserves (keeps (calls is_generate)) (getFileBytes E G file).
Proof.
  unfold getFileBytes, ensure_local_folder. frame (fun ev => negb (is_generate ev)).
Qed.

Lemma describe_bytes_keeps_uploads file data n :
  preserves (keeps (calls is_upload)) (describe_bytes E G file data n).
Proof.
  unfold describe_bytes, select_template. frame (fun ev => negb (is_upload ev)).
Qed.

Lemma describe_bytes_keeps_downloads file data n :
  preserves (keeps (calls is_download)) (describe_bytes E G file data n).
Proof.
  unfold describe_bytes, select_template. frame (fun ev => negb (is_download ev)).
Qed.

Lemma uploadFileToGCS_keeps_generate bucket folder name data override :
  preserves (keeps (calls is_generate))
    (uploadFileToGCS E bucket folder name data override).
Proof.
  unfold uploadFileToGCS, existence_check, put_object.
  frame (fun ev => negb (is_generate ev)).
Qed.

Lemma uploadFileToGCS_keeps_downloads bucket folder name data override :
  preserves (keeps (calls is_download))
    (uploadFileToGCS E bucket folder name data override).
Proof.
  unfold uploadFileToGCS, existence_check, put_object.
  frame (fun ev => negb (is_download ev)).
Qed.

Lemma existence_check_keeps_uploads bucket p override :
  preserves (keeps (calls is_upload)) (existence_check E bucket p override).
Proof. unfold existence_check. frame (fun ev => negb (is_upload ev)). Qed.

(** An upload call makes at most one call of the object writer, with the
    bytes it was given, on the object named by its folder and name. *)
Lemma uploadFileToGCS_upload_calls bucket folder name data override w :
  calls is_upload (uploadFileToGCS E bucket folder name data override w).2 =
    calls is_upload w \/
  calls is_upload (uploadFileToGCS E bucket folder name data override w).2 =
    calls is_upload w ++ [EvUpload bucket (filepath_Join folder name) data].
Proof.
  unfold uploadFileToGCS.
  destruct (storage_NewClient E) as [e |]; [by left |].
  pose proof (existence_check_keeps_uploads bucket (filepath_Join folder name)
                override w) as Hcheck.
  unfold bind.
  destruct (existence_check E bucket (filepath_Join folder name) override w)
    as [[[r |] | msg | msg] w0]; unfold keeps in Hcheck; simpl in *;
    try (left; exact Hcheck).
  right. rewrite <- Hcheck. apply put_object_calls.
Qed.

(** The description step makes at most one model call: with the bytes and
    the length it was given, the content type of the file, the configured
    model, and the prompt that the resolved template gives for the name. *)
Lemma describe_bytes_generate_calls file data n w :
  calls is_generate (describe_bytes E G file data n w).2 = calls is_generate w \/
  exists tmpl prompt,
    createDescription G = true /\
    resolves E G tmpl /\
    tmpl (Name file) = Ok prompt /\
    calls is_generate (describe_bytes E G file data n w).2 =
      calls is_generate w ++ [EvGenerate (model G) data (MimeType file) prompt].
Proof.
  unfold describe_bytes.
  destruct (createDescription G) eqn:Hon; [| by left].
  unfold bind, log_Printf at 1.
  unfold select_template.
  destruct (decide (customPromptLocation G <> "")) as [Hloc | Hloc].
  - destruct (template_ParseFiles E (customPromptLocation G)) as [tmpl | e] eqn:Hparse;
      simpl; [| left; by rewrite calls_emit_other].
    destruct (tmpl (Name file)) as [prompt | e] eqn:Hexec; simpl;
      [| left; by rewrite calls_emit_other].
    right. exists tmpl, prompt. split; [done |]. split; [left; by split |].
    split; [done |]. unfold Models_GenerateContent.
    destruct (genai_GenerateContent E (model G) data (MimeType file) prompt); simpl;
      rewrite ?calls_emit_other by reflexivity;
      by rewrite calls_emit, calls_emit_other.
  - apply dec_stable in Hloc.
    destruct (template_builtin E) as [tmpl | e] eqn:Hbuiltin; simpl;
      [| left; by rewrite calls_emit_other].
    destruct (tmpl (Name file)) as [prompt | e] eqn:Hexec; simpl;
      [| left; by rewrite calls_emit_other].
    right. exists tmpl, prompt. split; [done |]. split; [right; by split |].
    split; [done |]. unfold Models_GenerateContent.
    destruct (genai_GenerateContent E (model G) data (MimeType file) prompt); simpl;
      rewrite ?calls_emit_other by reflexivity;
      by rewrite calls_emit, calls_emit_other.
Qed.

(** Where [describe] leaves the state, by the outcome of the download. *)
Lemma describe_world file w :
  (exists b w1 uerr w2,
     getFileBytes E G file w = (Ret (Ok b), w1) /\
     drive_Download E (Id file) = DownloadResp http_StatusOK (Ok b) /\
     uploadFileToGCS E (gcsBucket G) (gcsFolderPath G) (Name file) b
       (alwaysUploadToGCS G)
       (emit (EvLog ("Obtained file bytes " +:+ Name file +:+ " ("
                     +:+ fmt_d (len b) +:+ ")")) w1) = (Ret uerr, w2) /\
     describe E G file w =
       describe_bytes E G file b (len b)
         (match uerr with
          | Some _ => emit (EvLog "Unable to upload to GCS") w2
          | None => w2
          end)) \/
  (describe E G file w).2 = (getFileBytes E G file w).2.
Proof.
  destruct (getFileBytes E G file w) as [[[b | msg] | msg | msg] w1] eqn:Hget.
  - left.
    destruct (getFileBytes_ok_inv E G _ _ _ _ Hget) as (Hresp & _).
    destruct (describe_after_download E G _ _ _ _ Hget) as (uerr & w2 & Hup & Hd).
    by exists b, w1, uerr, w2.
  - right. by rewrite (describe_download_failed E G _ _ _ _ Hget).
  - right. unfold describe, bind. by rewrite Hget.
  - right. unfold describe, bind. by rewrite Hget.
Qed.

End Outgoing.

Section Goroutine.

Context (E : Env) (G : Globals).

Lemma getFileBytes_download_calls file w :
  calls is_download (getFileBytes E G file w).2 =
    calls is_download w ++ [EvDownload (Id file)].
Proof.
  unfold getFileBytes.
  rewrite (bind_ret_eq _ _ w (drive_Download E (Id file))
             (emit (EvDownload (Id file)) w)) by reflexivity.
  cbv beta.
  match goal with
  | |- calls _ (?k (emit ?first w)).2 = _ =>
      assert (Hk : preserves (keeps (calls is_download)) k)
        by (unfold ensure_local_folder; frame (fun e0 => negb (is_download e0)));
      specialize (Hk (emit first w))
  end.
  unfold keeps in Hk. rewrite Hk. by rewrite calls_emit.
Qed.

(** What the rest of [describe] adds to the calls of one kind, when the
    download does not count among them. *)
Lemma describe_calls_of_the_rest sel file w :
  (forall line, sel (EvLog line) = false) ->
  calls sel (describe E G file w).2 = calls sel (getFileBytes E G file w).2 \/
  exists b w1 uerr w2,
    getFileBytes E G file w = (Ret (Ok b), w1) /\
    drive_Download E (Id file) = DownloadResp http_StatusOK (Ok b) /\
    uploadFileToGCS E (gcsBucket G) (gcsFolderPath G) (Name file) b
      (alwaysUploadToGCS G)
      (emit (EvLog ("Obtained file bytes " +:+ Name file +:+ " ("
                    +:+ fmt_d (len b) +:+ ")")) w1) = (Ret uerr, w2) /\
    exists w3,
      calls sel w3 = calls sel w2 /\
      describe E G file w = describe_bytes E G file b (len b) w3.
Proof.
  intros Hlog.
  destruct (describe_world E G file w)
    as [(b & w1 & uerr & w2 & Hget & Hresp & Hup & Hd) | Hsame].
  - right. exists b, w1, uerr, w2. repeat split; try done.
    eexists. split; [| exact Hd].
    destruct uerr; [by apply calls_emit_other | done].
  - left. by rewrite Hsame.
Qed.

Lemma task_download_calls file w :
  calls is_download (task E G file w).2 =
    calls is_download w ++ [EvDownload (Id file)].
Proof.
  rewrite task_calls_after_describe by done.
  rewrite <- getFileBytes_download_calls.
  destruct (describe_calls_of_the_rest is_download file w)
    as [Hsame | (b & w1 & uerr & w2 & Hget & _ & Hup & w3 & Hw3 & Hd)]; [done | done |].
  rewrite Hd, Hget. simpl.
  rewrite (describe_bytes_keeps_downloads E G file b (len b) w3), Hw3.
  pose proof (uploadFileToGCS_keeps_downloads E (gcsBucket G) (gcsFolderPath G)
                (Name file) b (alwaysUploadToGCS G)
                (emit (EvLog ("Obtained file bytes " +:+ Name file +:+ " ("
                              +:+ fmt_d (len b) +:+ ")")) w1)) as Hk.
  rewrite Hup in Hk. unfold keeps in Hk. simpl in Hk. rewrite Hk.
  by apply calls_emit_other.
Qed.

Lemma task_upload_calls file w :
  calls is_upload (task E G file w).2 = calls is_upload w \/
  exists b,
    drive_Download E (Id file) = DownloadResp http_StatusOK (Ok b) /\
    calls is_upload (task E G file w).2 =
      calls is_upload w ++
      [EvUpload (gcsBucket G) (filepath_Join (gcsFolderPath G) (Name file)) b].
Proof.
  rewrite task_calls_after_describe by done.
  pose proof (getFileBytes_keeps_uploads E G file w) as Hget0. unfold keeps in Hget0.
  destruct (describe_calls_of_the_rest is_upload file w)
    as [Hsame | (b & w1 & uerr & w2 & Hget & Hresp & Hup & w3 & Hw3 & Hd)]; [done | |].
  { left. by rewrite Hsame. }
  rewrite Hget in Hget0. simpl in Hget0.
  rewrite Hd, (describe_bytes_keeps_uploads E G file b (len b) w3), Hw3.
  pose proof (uploadFileToGCS_upload_calls E (gcsBucket G) (gcsFolderPath G)
                (Name file) b (alwaysUploadToGCS G)
                (emit (EvLog ("Obtained file bytes " +:+ Name file +:+ " ("
                              +:+ fmt_d (len b) +:+ ")")) w1)) as Hcalls.
  rewrite Hup in Hcalls. simpl in Hcalls.
  rewrite calls_emit_other, Hget0 in Hcalls by reflexivity.
  destruct Hcalls as [Hnone | Hone]; [by left |].
  right. by exists b.
Qed.

Lemma task_generate_calls file w :
  calls is_generate (task E G file w).2 = calls is_generate w \/
  exists b tmpl prompt,
    drive_Download E (Id file) = DownloadResp http_StatusOK (Ok b) /\
    createDescription G = true /\
    resolves E G tmpl /\
    tmpl (Name file) = Ok prompt /\
    calls is_generate (task E G file w).2 =
      calls is_generate w ++ [EvGenerate (model G) b (MimeType file) prompt].
Proof.
  rewrite task_calls_after_describe by done.
  pose proof (getFileBytes_keeps_generate E G file w) as Hget0. unfold keeps in Hget0.
  destruct (describe_calls_of_the_rest is_generate file w)
    as [Hsame | (b & w1 & uerr & w2 & Hget & Hresp & Hup & w3 & Hw3 & Hd)]; [done | |].
  { left. by rewrite Hsame. }
  rewrite Hget in Hget0. simpl in Hget0.
  pose proof (uploadFileToGCS_keeps_generate E (gcsBucket G) (gcsFolderPath G)
                (Name file) b (alwaysUploadToGCS G)
                (emit (EvLog ("Obtained file bytes " +:+ Name file +:+ " ("
                              +:+ fmt_d (len b) +:+ ")")) w1)) as Hk.
  rewrite Hup in Hk. unfold keeps in Hk. simpl in Hk.
  rewrite calls_emit_other, Hget0 in Hk by reflexivity.
  rewrite Hd.
  destruct (describe_bytes_generate_calls E G file b (len b) w3)
    as [Hnone | (tmpl & prompt & Hon & Hres & Hexec & Hone)].
  - left. by rewrite Hnone, Hw3.
  - right. exists b, tmpl, prompt. repeat split; try done.
    by rewrite Hone, Hw3, Hk.
Qed.


(** A run, however it ends, has made the Drive request of each goroutine
    that ran, in order; all of them when it returns. *)
Lemma run_tasks_download_calls files w :
  exists k,
    (k <= length files)%nat /\
    calls is_download (run_tasks E G files w).2 =
      calls is_download w ++ map (fun f => EvDownload (Id f)) (take k files) /\
    (returned (run_tasks E G files w).1 = true -> k = length files).
Proof.
  revert w. induction files as [| file rest IH]; intros w.
  - exists 0%nat. simpl. by rewrite app_nil_r.
  - simpl run_tasks.
    destruct (task E G file w) as [[[] | msg | msg] w1] eqn:Ht.
    + rewrite (bind_ret_eq _ _ _ _ _ Ht).
      destruct (IH w1) as (k & Hk & Hcalls & Hall).
      exists (S k). split; [simpl; lia |]. split.
      * rewrite Hcalls. pose proof (task_download_calls file w) as Hone.
        rewrite Ht in Hone. simpl in Hone. rewrite Hone.
        by rewrite <- app_assoc.
      * intros Hret. simpl. f_equal. by apply Hall.
    + destruct (bind_stops (task E G file) (fun _ => run_tasks E G rest) w)
        as [Hw Hout]; [by rewrite Ht |].
      exists 1%nat. split; [simpl; lia |]. split.
      * rewrite Hw. simpl. apply task_download_calls.
      * intros Hret. congruence.
    + destruct (bind_stops (task E G file) (fun _ => run_tasks E G rest) w)
        as [Hw Hout]; [by rewrite Ht |].
      exists 1%nat. split; [simpl; lia |]. split.
      * rewrite Hw. simpl. apply task_download_calls.
      * intros Hret. congruence.
Qed.


End Goroutine.

(** ** What a whole run sends to the outside *)

Section RunCalls.

Context (E : Env) (G : Globals).

(** Collecting over the goroutines of a run what each adds to the calls of
    one kind, however the run ends. *)
Lemma run_tasks_collect sel (P : File -> Event -> Prop) :
  (forall file w,
     exists evs,
       calls sel (task E G file w).2 = calls sel w ++ evs /\
       (length evs <= 1)%nat /\ Forall (P file) evs) ->
  forall files w,
    exists evs,
      calls sel (run_tasks E G files w).2 = calls sel w ++ evs /\
      (length evs <= length files)%nat /\
      Forall (fun ev => exists file, file ∈ files /\ P file ev) evs.
Proof.
  intros Htask files. induction files as [| file rest IH]; intros w.
  - exists []. simpl. rewrite app_nil_r. split; [done |]. split; [lia | constructor].
  - simpl run_tasks.
    destruct (Htask file w) as (evs1 & Hcalls1 & Hlen1 & Hall1).
    assert (Hall1' : Forall (fun ev => exists f, f ∈ file :: rest /\ P f ev) evs1).
    { eapply Forall_impl; [exact Hall1 |].
      intros ev Hev. exists file. split; [left | done]. }
    destruct (task E G file w) as [[[] | msg | msg] w1] eqn:Ht.
    + rewrite (bind_ret_eq _ _ _ _ _ Ht).
      destruct (IH w1) as (evs2 & Hcalls2 & Hlen2 & Hall2).
      exists (evs1 ++ evs2). simpl in Hcalls1. split; [| split].
      * by rewrite Hcalls2, Hcalls1, <- app_assoc.
      * rewrite length_app. simpl. lia.
      * apply Forall_app. split; [done |].
        eapply Forall_impl; [exact Hall2 |].
        intros ev (f & Hin & Hev). exists f. split; [by right | done].
    + destruct (bind_stops (task E G file) (fun _ => run_tasks E G rest) w)
        as [Hw _]; [by rewrite Ht |].
      exists evs1. rewrite Hw, Ht. simpl. simpl in Hcalls1.
      split; [done |]. split; [lia | done].
    + destruct (bind_stops (task E G file) (fun _ => run_tasks E G rest) w)
        as [Hw _]; [by rewrite Ht |].
      exists evs1. rewrite Hw, Ht. simpl. simpl in Hcalls1.
      split; [done |]. split; [lia | done].
Qed.

Lemma schedule_count fileList :
  go_schedule E (spawned G fileList) ≡ₚ spawned G fileList ->
  len (go_schedule E (spawned G fileList)) = specified_row_count G fileList.
Proof.
  intros Hperm. rewrite <- spawned_count. unfold len. f_equal.
  by apply Permutation_length.
Qed.

Lemma schedule_elem fileList file :
  go_schedule E (spawned G fileList) ≡ₚ spawned G fileList ->
  file ∈ go_schedule E (spawned G fileList) ->
  exists i, (Z.of_nat i < fileCount G fileList) /\ fileList !! i = Some file.
Proof.
  intros Hperm Hin. rewrite Hperm in Hin. unfold spawned in Hin.
  apply list_elem_of_lookup in Hin as [i Hi].
  apply lookup_take_Some in Hi as [Hi Hlt].
  exists i. split; [lia | done].
Qed.

End RunCalls.

(** Whatever happens in a run (failures, a fatal stop, a full disk): the
    Drive requests it has made are those of the first goroutines of the
    schedule, one request each and in order; all of them when the run
    returns. Their number never exceeds min(listed files, positive
    maximum), and each is for a file among the first [fileCount] entries of
    the listing. *)
Theorem run_requests_only_the_started_files E G fileList w :
  go_schedule E (spawned G fileList) ≡ₚ spawned G fileList ->
  let schedule := go_schedule E (spawned G fileList) in
  exists k,
    (k <= length schedule)%nat /\
    calls is_download (process E G fileList w).2 =
      calls is_download w ++ map (fun f => EvDownload (Id f)) (take k schedule) /\
    Z.of_nat k <= specified_row_count G fileList /\
    (returned (process E G fileList w).1 = true ->
     Z.of_nat k = specified_row_count G fileList) /\
    (forall file, file ∈ take k schedule ->
       exists i, Z.of_nat i < fileCount G fileList /\ fileList !! i = Some file).
Proof.
  intros Hperm schedule. unfold process. fold schedule.
  destruct (run_tasks_download_calls E G schedule w) as (k & Hk & Hcalls & Hall).
  pose proof (schedule_count E G fileList Hperm) as Hcount.
  fold schedule in Hcount. unfold len in Hcount.
  exists k. split; [done |]. split; [done |]. split; [lia |]. split.
  - intros Hret. rewrite (Hall Hret). exact Hcount.
  - intros file Hin. apply (schedule_elem E G fileList file Hperm).
    apply list_elem_of_lookup in Hin as [i Hi].
    apply lookup_take_Some in Hi as [Hi _].
    apply list_elem_of_lookup. by exists i.
Qed.

Lemma run_requests_only_the_started_files_witness :
  let G := Flags.init [Flags.ArgMax 1] in
  let schedule := go_schedule Sample.env (spawned G [Sample.cat; Sample.dog]) in
  exists k,
    (k <= length schedule)%nat /\
    calls is_download (process Sample.env G [Sample.cat; Sample.dog] empty_world).2 =
      calls is_download empty_world ++
      map (fun f => EvDownload (Id f)) (take k schedule) /\
    Z.of_nat k <= specified_row_count G [Sample.cat; Sample.dog] /\
    (returned (process Sample.env G [Sample.cat; Sample.dog] empty_world).1 = true ->
     Z.of_nat k = specified_row_count G [Sample.cat; Sample.dog]) /\
    (forall file, file ∈ take k schedule ->
       exists i, Z.of_nat i < fileCount G [Sample.cat; Sample.dog] /\
                 [Sample.cat; Sample.dog] !! i = Some file).
Proof.
  intros G.
  apply (run_requests_only_the_started_files Sample.env G
           [Sample.cat; Sample.dog] empty_world).
  vm_compute. reflexivity.
Defined.

(** Whatever happens in a run: every call of the object writer it has made
    is for one of its files, carries exactly the bytes that Drive returned
    for that file, and goes to the object named after the file under the
    configured folder path of the configured bucket; there is at most one
    such call per started goroutine. *)
Theorem run_uploads_only_what_it_downloaded E G fileList w :
  go_schedule E (spawned G fileList) ≡ₚ spawned G fileList ->
  exists evs,
    calls is_upload (process E G fileList w).2 = calls is_upload w ++ evs /\
    len evs <= specified_row_count G fileList /\
    Forall (fun ev =>
              exists file i b,
                Z.of_nat i < fileCount G fileList /\
                fileList !! i = Some file /\
                drive_Download E (Id file) = DownloadResp http_StatusOK (Ok b) /\
                ev = EvUpload (gcsBucket G)
                       (filepath_Join (gcsFolderPath G) (Name file)) b) evs.
Proof.
  intros Hperm. unfold process.
  destruct (run_tasks_collect E G is_upload
              (fun file ev =>
                 exists b,
                   drive_Download E (Id file) = DownloadResp http_StatusOK (Ok b) /\
                   ev = EvUpload (gcsBucket G)
                          (filepath_Join (gcsFolderPath G) (Name file)) b))
    with (files := go_schedule E (spawned G fileList)) (w := w)
    as (evs & Hcalls & Hlen & Hall).
  { intros file w0. destruct (task_upload_calls E G file w0) as [Hnone | (b & Hresp & Hone)].
    - exists []. rewrite app_nil_r. split; [done |]. split; [simpl; lia | constructor].
    - eexists [_]. split; [exact Hone |]. split; [simpl; lia |].
      constructor; [by exists b | constructor]. }
  exists evs. split; [done |]. split.
  - rewrite <- (schedule_count E G fileList Hperm). unfold len. lia.
  - eapply Forall_impl; [exact Hall |].
    intros ev (file & Hin & b & Hresp & ->).
    destruct (schedule_elem E G fileList file Hperm Hin) as (i & Hi & Hlook).
    by exists file, i, b.
Qed.

Lemma run_uploads_only_what_it_downloaded_witness :
  exists evs,
    calls is_upload (process Sample.env Sample.defaults
                       [Sample.cat; Sample.dog] empty_world).2 =
      calls is_upload empty_world ++ evs /\
    len evs <= specified_row_count Sample.defaults [Sample.cat; Sample.dog] /\
    Forall (fun ev =>
              exists file i b,
                Z.of_nat i < fileCount Sample.defaults [Sample.cat; Sample.dog] /\
                [Sample.cat; Sample.dog] !! i = Some file /\
                drive_Download Sample.env (Id file) =
                  DownloadResp http_StatusOK (Ok b) /\
                ev = EvUpload (gcsBucket Sample.defaults)
                       (filepath_Join (gcsFolderPath Sample.defaults) (Name file)) b)
           evs.
Proof.
  apply (run_uploads_only_what_it_downloaded Sample.env Sample.defaults
           [Sample.cat; Sample.dog] empty_world).
  vm_compute. apply perm_swap.
Defined.

(** Whatever happens in a run: every model call it has made is for one of
    its files, with description switched on, and is given the bytes that
    Drive returned for that file, the content type of the file, the
    configured model, and the prompt that the resolved template produced
    for the name of the file; there is at most one call per started
    goroutine. *)
Theorem run_describes_only_what_it_downloaded E G fileList w :
  go_schedule E (spawned G fileList) ≡ₚ spawned G fileList ->
  exists evs,
    calls is_generate (process E G fileList w).2 = calls is_generate w ++ evs /\
    len evs <= specified_row_count G fileList /\
    (createDescription G = false -> evs = []) /\
    Forall (fun ev =>
              exists file i b tmpl prompt,
                Z.of_nat i < fileCount G fileList /\
                fileList !! i = Some file /\
                drive_Download E (Id file) = DownloadResp http_StatusOK (Ok b) /\
                resolves E G tmpl /\
                tmpl (Name file) = Ok prompt /\
                ev = EvGenerate (model G) b (MimeType file) prompt) evs.
Proof.
  intros Hperm. unfold process.
  destruct (run_tasks_collect E G is_generate
              (fun file ev =>
                 exists b tmpl prompt,
                   createDescription G = true /\
                   drive_Download E (Id file) = DownloadResp http_StatusOK (Ok b) /\
                   resolves E G tmpl /\
                   tmpl (Name file) = Ok prompt /\
                   ev = EvGenerate (model G) b (MimeType file) prompt))
    with (files := go_schedule E (spawned G fileList)) (w := w)
    as (evs & Hcalls & Hlen & Hall).
  { intros file w0.
    destruct (task_generate_calls E G file w0)
      as [Hnone | (b & tmpl & prompt & Hresp & Hon & Hres & Hexec & Hone)].
    - exists []. rewrite app_nil_r. split; [done |]. split; [simpl; lia | constructor].
    - eexists [_]. split; [exact Hone |]. split; [simpl; lia |].
      constructor; [by exists b, tmpl, prompt | constructor]. }
  exists evs. split; [done |]. split; [| split].
  - rewrite <- (schedule_count E G fileList Hperm). unfold len. lia.
  - intros Hoff. destruct evs as [| ev evs]; [done |].
    apply Forall_cons in Hall as [(file & _ & b & tmpl & prompt & Hon & _) _].
    congruence.
  - eapply Forall_impl; [exact Hall |].
    intros ev (file & Hin & b & tmpl & prompt & Hon & Hresp & Hres & Hexec & ->).
    destruct (schedule_elem E G fileList file Hperm Hin) as (i & Hi & Hlook).
    by exists file, i, b, tmpl, prompt.
Qed.

Lemma run_describes_only_what_it_downloaded_witness :
  exists evs,
    calls is_generate (process Sample.env Sample.defaults
                         [Sample.cat; Sample.dog] empty_world).2 =
      calls is_generate empty_world ++ evs /\
    len evs <= specified_row_count Sample.defaults [Sample.cat; Sample.dog] /\
    (createDescription Sample.defaults = false -> evs = []) /\
    Forall (fun ev =>
              exists file i b tmpl prompt,
                Z.of_nat i < fileCount Sample.defaults [Sample.cat; Sample.dog] /\
                [Sample.cat; Sample.dog] !! i = Some file /\
                drive_Download Sample.env (Id file) =
                  DownloadResp http_StatusOK (Ok b) /\
                resolves Sample.env Sample.defaults tmpl /\
                tmpl (Name file) = Ok prompt /\
                ev = EvGenerate (model Sample.defaults) b (MimeType file) prompt) evs.
Proof.
  apply (run_describes_only_what_it_downloaded Sample.env Sample.defaults
           [Sample.cat; Sample.dog] empty_world).
  vm_compute. apply perm_swap.
Defined.



(** ** The bucket across upload calls *)

#[local] Instance store_events : EventFrame (keeps bucket_store) any_event.
Proof. by intros ev w _. Qed.
#[local] Instance store_fs : FsFrame (keeps bucket_store).
Proof. by intros fs w. Qed.
#[local] Instance store_rows : RowFrame (keeps bucket_store).
Proof. by intros record w. Qed.

Section Bucket.

Context (E : Env).

Lemma existence_check_keeps_store bucket p override :
  preserves (keeps bucket_store) (existence_check E bucket p override).
Proof. unfold existence_check. frame any_event. Qed.

(** The upload proper leaves the bucket as it is, or puts the bytes at its
    object; it returns success only in the second case. *)
Lemma put_object_store bucket p data w :
  (bucket_store (put_object E bucket p data w).2 = bucket_store w /\
   (put_object E bucket p data w).1 <> Ret None) \/
  (bucket_store (put_object E bucket p data w).2 =
     <[(bucket, p) := data]> (bucket_store w) /\
   (put_object E bucket p data w).1 = Ret None).
Proof.
  unfold put_object, bind, Writer_Write, Writer_Close.
  destruct (gcs_fault E (OpWrite bucket p)); [by left |].
  destruct (gcs_fault E (OpClose bucket p)); [by left | by right].
Qed.

(** A successful upload call leaves an object at its path: the one that
    was there when the call skipped, the new bytes otherwise. *)
Lemma upload_success_present bucket folder name data override w w1 :
  uploadFileToGCS E bucket folder name data override w = (Ret None, w1) ->
  storage_NewClient E = None /\
  is_Some (bucket_store w1 !! (bucket, filepath_Join folder name)).
Proof.
  unfold uploadFileToGCS.
  destruct (storage_NewClient E) as [e |]; [discriminate |].
  intros Hup. split; [done |]. revert Hup. unfold bind.
  pose proof (existence_check_keeps_store bucket (filepath_Join folder name)
                override w) as Hkeep. unfold keeps in Hkeep.
  destruct (existence_check E bucket (filepath_Join folder name) override w)
    as [[[r |] | msg | msg] w0] eqn:Hcheck; try discriminate; simpl in Hkeep.
  - intros [= -> <-]. rewrite Hkeep.
    unfold existence_check in Hcheck. destruct override; [discriminate |].
    unfold bind, Object_Attrs in Hcheck. simpl in Hcheck.
    destruct (gcs_fault E (OpAttrs bucket (filepath_Join folder name)));
      [discriminate |].
    destruct (bucket_store w !! (bucket, filepath_Join folder name)) eqn:Hlook;
      [eauto | discriminate].
  - intros Hput.
    destruct (put_object_store bucket (filepath_Join folder name) data w0)
      as [[_ Hfail] | [Hstore _]]; rewrite Hput in *; simpl in *; [done |].
    rewrite Hstore, lookup_insert_eq. eauto.
Qed.

(** An upload call changes no object but its own, and removes none. *)
Lemma upload_store_cases bucket folder name data override w :
  bucket_store (uploadFileToGCS E bucket folder name data override w).2 =
    bucket_store w \/
  bucket_store (uploadFileToGCS E bucket folder name data override w).2 =
    <[(bucket, filepath_Join folder name) := data]> (bucket_store w).
Proof.
  unfold uploadFileToGCS.
  destruct (storage_NewClient E) as [e |]; [by left |]. unfold bind.
  pose proof (existence_check_keeps_store bucket (filepath_Join folder name)
                override w) as Hkeep. unfold keeps in Hkeep.
  destruct (existence_check E bucket (filepath_Join folder name) override w)
    as [[[r |] | msg | msg] w0]; simpl in *; try (by left).
  rewrite <- Hkeep.
  destruct (put_object_store bucket (filepath_Join folder name) data w0)
    as [[Hsame _] | [Hput _]]; [by left | by right].
Qed.

End Bucket.

(** Once an upload call has returned success, a later call for the same
    object with the override flag false (and a working probe) skips the
    upload: it returns success, calls the object writer not at all and
    leaves the bucket as it is, whatever bytes it is given. *)
Theorem upload_is_skipped_after_a_successful_upload
    E bucket folder name data data' override w w1 :
  uploadFileToGCS E bucket folder name data override w = (Ret None, w1) ->
  gcs_fault E (OpAttrs bucket (filepath_Join folder name)) = None ->
  exists w2,
    uploadFileToGCS E bucket folder name data' false w1 = (Ret None, w2) /\
    calls is_upload w2 = calls is_upload w1 /\
    bucket_store w2 = bucket_store w1.
Proof.
  intros Hfirst Hprobe.
  destruct (upload_success_present E _ _ _ _ _ _ _ Hfirst) as [Hclient [c Hc]].
  assert (Hattrs : Object_Attrs E bucket (filepath_Join folder name) w1 =
                   (Ret AttrsFound,
                    emit (EvAttrs bucket (filepath_Join folder name)) w1)).
  { unfold Object_Attrs. simpl. by rewrite Hprobe, Hc. }
  rewrite (upload_probe E _ _ _ data' _ _ _ Hclient Hattrs).
  eexists. split; [reflexivity |]. split; [| done].
  by rewrite !calls_emit_other.
Qed.

Lemma upload_is_skipped_after_a_successful_upload_witness :
  exists w2,
    uploadFileToGCS Sample.env "demo-media" "" "cat.png" Sample.dog_bytes false
      (uploadFileToGCS Sample.env "demo-media" "" "cat.png" Sample.cat_bytes true
         empty_world).2 = (Ret None, w2) /\
    calls is_upload w2 =
      calls is_upload
        (uploadFileToGCS Sample.env "demo-media" "" "cat.png" Sample.cat_bytes true
           empty_world).2 /\
    bucket_store w2 =
      bucket_store
        (uploadFileToGCS Sample.env "demo-media" "" "cat.png" Sample.cat_bytes true
           empty_world).2.
Proof.
  apply (upload_is_skipped_after_a_successful_upload Sample.env "demo-media" ""
           "cat.png" Sample.cat_bytes Sample.dog_bytes true empty_world).
  - vm_compute. reflexivity.
  - reflexivity.
Defined.

(** An upload call never touches another object of the bucket, never
    removes its own, and changes neither the local folder nor the rows. *)
Theorem upload_touches_only_its_object E bucket folder name data override w :
  let w' := (uploadFileToGCS E bucket folder name data override w).2 in
  (forall key, key <> (bucket, filepath_Join folder name) ->
     bucket_store w' !! key = bucket_store w !! key) /\
  (is_Some (bucket_store w !! (bucket, filepath_Join folder name)) ->
   is_Some (bucket_store w' !! (bucket, filepath_Join folder name))) /\
  local_fs w' = local_fs w /\
  csv_rows w' = csv_rows w.
Proof.
  intros w'. subst w'. split; [| split; [| split]].
  - intros key Hne.
    destruct (upload_store_cases E bucket folder name data override w) as [-> | ->];
      [done |]. by rewrite lookup_insert_ne.
  - intros Hsome.
    destruct (upload_store_cases E bucket folder name data override w) as [-> | ->];
      [done |]. rewrite lookup_insert_eq. eauto.
  - apply (uploadFileToGCS_keeps_fs E).
  - apply (uploadFileToGCS_keeps_rows E).
Qed.

(** ** The local folder across downloads *)

Section LocalCopies.

Context (E : Env) (G : Globals).

Lemma getFileBytes_keeps_store file :
  preserves (keeps bucket_store) (getFileBytes E G file).
Proof. unfold getFileBytes, ensure_local_folder. frame any_event. Qed.

(** However [getFileBytes] ends, no local file other than the one named
    after the Drive file is created or changed. *)
Lemma getFileBytes_other_files file w q :
  q <> filepath_Join (localFolderName G) (Name file) ->
  local_file (getFileBytes E G file w).2 q = local_file w q.
Proof.
  intros Hne. unfold getFileBytes, bind, Files_Get_Download.
  destruct (drive_Download E (Id file)) as [e | status body]; [done |].
  destruct (status =? http_StatusOK); simpl; [| done].
  destruct body as [fileBytes | e]; [| done].
  destruct (ensure_local_folder_spec E G (emit (EvDownload (Id file)) w))
    as (mk & wm & Hmk & Hsame & _).
  rewrite Hmk.
  destruct mk as [e |]; [exact (Hsame q) |].
  unfold os_Stat_file.
  set (p := filepath_Join (localFolderName G) (Name file)) in *.
  destruct (fs_fault E (OpStatFile p)) as [e |]; [exact (Hsame q) |].
  destruct (local_file wm p) as [c |] eqn:Hfile; simpl; [exact (Hsame q) |].
  unfold os_WriteFile. simpl.
  destruct (fs_fault E (OpWriteFile p)) as [e |]; [exact (Hsame q) |].
  destruct (local_fs wm !! localFolderName G) as [entries |] eqn:Hentries;
    [| exact (Hsame q)].
  pose proof (local_file_write wm p entries fileBytes q Hentries) as Hw.
  rewrite decide_False in Hw by done.
  transitivity (local_file wm q); [exact Hw | exact (Hsame q)].
Qed.


(** What the description step can return. *)
Lemma describe_bytes_result file b n0 w d n err w' :
  describe_bytes E G file b n0 w = (Ret (d, n, err), w') ->
  (forall e, err = Some e -> d = "" /\ n = 0) /\
  (n = 0 \/ n = n0) /\
  (createDescription G = false -> d = placeholder /\ n = n0 /\ err = None).
Proof.
  unfold describe_bytes.
  destruct (createDescription G).
  - unfold bind, log_Printf at 1, select_template.
    destruct (decide (customPromptLocation G <> "")) as [Hloc | Hloc].
    + destruct (template_ParseFiles E (customPromptLocation G)) as [tmpl | e0]; simpl.
      * destruct (tmpl (Name file)) as [prompt | e0]; simpl.
        -- unfold Models_GenerateContent.
           destruct (genai_GenerateContent E (model G) b (MimeType file) prompt);
             simpl; intros [= <- <- <- _]; repeat split; try done; auto.
        -- intros [= <- <- <- _]. repeat split; try done; auto.
      * intros [= <- <- <- _]. repeat split; try done; auto.
    + destruct (template_builtin E) as [tmpl | e0]; simpl; [| discriminate].
      destruct (tmpl (Name file)) as [prompt | e0]; simpl.
      * unfold Models_GenerateContent.
        destruct (genai_GenerateContent E (model G) b (MimeType file) prompt);
          simpl; intros [= <- <- <- _]; repeat split; try done; auto.
      * intros [= <- <- <- _]. repeat split; try done; auto.
  - intros [= <- <- <- _]. repeat split; try done; auto.
Qed.

End LocalCopies.

(** However a download ends, it creates or changes no local file other than
    the one named after the Drive file, puts nothing in the bucket and
    appends no row. *)
Theorem download_touches_only_its_local_file E G file w :
  let w' := (getFileBytes E G file w).2 in
  (forall q, q <> filepath_Join (localFolderName G) (Name file) ->
     local_file w' q = local_file w q) /\
  bucket_store w' = bucket_store w /\
  csv_rows w' = csv_rows w.
Proof.
  intros w'. subst w'. split; [| split].
  - intros q Hne. by apply getFileBytes_other_files.
  - apply (getFileBytes_keeps_store E G).
  - apply (getFileBytes_keeps_rows E G).
Qed.



(** Whatever [describe] returns: with an error, the description is empty
    and the size is 0; the size is 0 or the length of the bytes that Drive
    returned for the file; and with description switched off, a result
    without error is the placeholder with the length of those bytes. *)
Theorem describe_result_shape E G file w d n err w' :
  describe E G file w = (Ret (d, n, err), w') ->
  (forall e, err = Some e -> d = "" /\ n = 0) /\
  (n = 0 \/
   exists b, drive_Download E (Id file) = DownloadResp http_StatusOK (Ok b) /\
             n = len b) /\
  (createDescription G = false -> err = None ->
   d = placeholder /\
   exists b, drive_Download E (Id file) = DownloadResp http_StatusOK (Ok b) /\
             n = len b).
Proof.
  intros Hd.
  destruct (getFileBytes E G file w) as [[[b | msg] | msg | msg] w1] eqn:Hget.
  - destruct (getFileBytes_ok_inv E G _ _ _ _ Hget) as (Hresp & _).
    destruct (describe_after_download E G _ _ _ _ Hget) as (uerr & w2 & _ & Hbytes).
    rewrite Hbytes in Hd.
    destruct (describe_bytes_result E G _ _ _ _ _ _ _ _ Hd) as (Herr & Hsize & Hoff).
    split; [done |]. split.
    + destruct Hsize as [-> | ->]; [by left | right; by exists b].
    + intros Hcfg _. destruct (Hoff Hcfg) as (-> & -> & _). split; [done |].
      by exists b.
  - rewrite (describe_download_failed E G _ _ _ _ Hget) in Hd.
    injection Hd as <- <- <- _. split; [done |]. split; [by left | done].
  - unfold describe, bind in Hd. rewrite Hget in Hd. discriminate.
  - unfold describe, bind in Hd. rewrite Hget in Hd. discriminate.
Qed.

Lemma describe_result_shape_witness :
  (forall e, (None : error) = Some e -> "a picture" = "" /\ 4 = 0) /\
  (4 = 0 \/
   exists b, drive_Download Sample.env (Id Sample.cat) =
               DownloadResp http_StatusOK (Ok b) /\ 4 = len b) /\
  (createDescription Sample.defaults = false -> (None : error) = None ->
   "a picture" = placeholder /\
   exists b, drive_Download Sample.env (Id Sample.cat) =
               DownloadResp http_StatusOK (Ok b) /\ 4 = len b).
Proof.
  apply (describe_result_shape Sample.env Sample.defaults Sample.cat empty_world
           "a picture" 4 None
           (describe Sample.env Sample.defaults Sample.cat empty_world).2).
  vm_compute. reflexivity.
Defined.

(** ** main, end to end *)

Lemma only_logged_refl w : only_logged w w.
Proof. by repeat split. Qed.

Lemma only_logged_log line w w' :
  only_logged w w' -> only_logged w (emit (EvLog line) w').
Proof.
  intros (Hfs & Hstore & Hrows & Hcalls). repeat split; try done.
  intros sel Hlog Hlist. rewrite calls_emit_other by done. by apply Hcalls.
Qed.

Lemma only_logged_list query w w' :
  only_logged w w' -> only_logged w (emit (EvList query) w').
Proof.
  intros (Hfs & Hstore & Hrows & Hcalls). repeat split; try done.
  intros sel Hlog Hlist. rewrite calls_emit_other by done. by apply Hcalls.
Qed.

Section Main.

Context (E : Env) (G : Globals).

Lemma configured_fields :
  sourceFolderID (configured E G) = sourceFolderID G /\
  mimeTypes (configured E G) = mimeTypes G /\
  maxFiles (configured E G) = maxFiles G /\
  gcsFolderPath (configured E G) = gcsFolderPath G /\
  gcsBucket (configured E G) =
    (if decide (gcsBucket G = "")
     then os_Getenv E "PROJECT_ID" +:+ "-media" else gcsBucket G).
Proof. unfold configured. simpl. by destruct (decide (gcsBucket G = "")). Qed.

(** [main] either stops before any goroutine is started, having only
    logged, or reaches the loop with the variables configured and the
    non-nil entries of the listing. *)
Lemma main_run_cases w :
  (~ ready E G /\
   returned (main E G w).1 = false /\
   only_logged w (main E G w).2) \/
  (ready E G /\
   exists files w0,
     drive_List E (listFiles_query (sourceFolderID G) (mimeTypes G)) = Ok files /\
     only_logged w w0 /\
     main E G w =
       (process E (configured E G) (omap id files);;
        log_Printf "CSV file written successfully.") w0).
Proof.
  unfold main.
  destruct (decide (os_Getenv E "PROJECT_ID" = "")) as [Hproject | Hproject].
  { left. split; [by intros [[H _] _] |]. split; [done |].
    apply only_logged_log, only_logged_refl. }
  destruct (decide (os_Getenv E "GOOGLE_CREDENTIALS" = "")) as [Hcred | Hcred].
  { left. split; [by intros [(_ & H & _) _] |]. split; [done |].
    apply only_logged_refl. }
  destruct (os_ReadFile E (os_Getenv E "GOOGLE_CREDENTIALS")) as [b | e] eqn:Hread.
  2:{ left. split; [intros [(_ & _ & (b & Hb & _) & _) _]; congruence |].
      split; [done |]. apply only_logged_refl. }
  destruct (google_ConfigFromJSON E b) as [e |] eqn:Hconfig.
  { left. split; [intros [(_ & _ & (b' & Hb & Hc) & _) _]; congruence |].
    split; [done |]. apply only_logged_log, only_logged_refl. }
  destruct (getClient E) as [e |] eqn:Hclient.
  { left. split; [intros [(_ & _ & _ & H & _) _]; congruence |].
    split; [done |]. apply only_logged_log, only_logged_refl. }
  destruct (drive_NewService E) as [e |] eqn:Hdrive.
  { left. split; [intros [(_ & _ & _ & _ & H & _) _]; congruence |].
    split; [done |]. apply only_logged_log, only_logged_refl. }
  destruct (genai_NewClient E) as [e |] eqn:Hgenai.
  { left. split; [intros [(_ & _ & _ & _ & _ & H) _]; congruence |].
    split; [done |]. apply only_logged_log, only_logged_log, only_logged_refl. }
  assert (Hstart : startup_ok E).
  { repeat split; try done. by exists b. }
  fold (configured E G).
  destruct configured_fields as (-> & -> & _).
  unfold bind at 1, listFiles.
  destruct (drive_List E (listFiles_query (sourceFolderID G) (mimeTypes G)))
    as [files | e] eqn:Hlist.
  2:{ left. split; [intros (_ & [files Hfiles] & _); congruence |].
      split; [done |]. apply only_logged_log, only_logged_list, only_logged_refl. }
  cbn [bind log_Printf ret fst snd].
  destruct (os_Create E "descriptions.csv") as [e |] eqn:Hcreate.
  { left. split; [intros (_ & _ & H); congruence |]. split; [done |].
    repeat apply only_logged_log. apply only_logged_list, only_logged_refl. }
  right. split; [by repeat split; eauto |].
  eexists files, _. split; [done |]. split; [| reflexivity].
  repeat apply only_logged_log. apply only_logged_list, only_logged_refl.
Qed.

End Main.

Section MainCalls.

Context (E : Env) (G : Globals).

Lemma then_log_calls {A : Type} (m : Prog A) line sel w :
  (forall l, sel (EvLog l) = false) ->
  calls sel ((m;; log_Printf line) w).2 = calls sel (m w).2.
Proof.
  intros Hlog. unfold bind. destruct (m w) as [[a | msg | msg] w1]; simpl; try done.
  by apply calls_emit_other.
Qed.

(** The calls of [main], apart from logging and listing, are those of its
    loop over the non-nil entries of the listing. *)
Lemma main_calls sel w :
  (forall line, sel (EvLog line) = false) ->
  (forall query, sel (EvList query) = false) ->
  calls sel (main E G w).2 = calls sel w \/
  exists files w0,
    drive_List E (listFiles_query (sourceFolderID G) (mimeTypes G)) = Ok files /\
    calls sel w0 = calls sel w /\
    calls sel (main E G w).2 =
      calls sel (process E (configured E G) (omap id files) w0).2.
Proof.
  intros Hlog Hlist.
  destruct (main_run_cases E G w)
    as [(_ & _ & _ & _ & _ & Hcalls) | (_ & files & w0 & Hfiles & Hw0 & ->)].
  - left. by apply Hcalls.
  - right. exists files, w0. split; [done |].
    destruct Hw0 as (_ & _ & _ & Hcalls). split; [by apply Hcalls |].
    by apply then_log_calls.
Qed.

(** A file of the schedule of the loop is a non-nil entry of the listing. *)
Lemma scheduled_file_is_listed G' files file :
  go_schedule E (spawned G' (omap id files)) ≡ₚ spawned G' (omap id files) ->
  file ∈ go_schedule E (spawned G' (omap id files)) ->
  Some file ∈ files.
Proof.
  intros Hperm Hin.
  destruct (schedule_elem E G' _ _ Hperm Hin) as (i & _ & Hlook).
  assert (Hel : file ∈ omap id files) by (apply list_elem_of_lookup; eauto).
  apply list_elem_of_omap in Hel as (o & Ho & Hid). simpl in Hid. by subst o.
Qed.

End MainCalls.

(** Unless everything [main] needs is in place (the two environment
    variables, the credentials file, the authorised client, the service
    clients, a successful listing, the output file), [main] stops the
    process and has done nothing but log and, at most, list: no download,
    no upload, no model call, no row, no change of the local folder or of
    the bucket. *)
Theorem main_does_nothing_unless_ready E G w :
  ~ ready E G ->
  returned (main E G w).1 = false /\
  calls is_download (main E G w).2 = calls is_download w /\
  calls is_upload (main E G w).2 = calls is_upload w /\
  calls is_generate (main E G w).2 = calls is_generate w /\
  csv_rows (main E G w).2 = csv_rows w /\
  local_fs (main E G w).2 = local_fs w /\
  bucket_store (main E G w).2 = bucket_store w.
Proof.
  intros Hnot.
  destruct (main_run_cases E G w)
    as [(_ & Hstop & Hfs & Hstore & Hrows & Hcalls) | (Hready & _)]; [| done].
  split; [done |]. repeat split; try done; by apply Hcalls.
Qed.

Lemma main_does_nothing_unless_ready_witness :
  let run := main Sample.env_no_listing Sample.defaults empty_world in
  returned run.1 = false /\
  calls is_download run.2 = calls is_download empty_world /\
  calls is_upload run.2 = calls is_upload empty_world /\
  calls is_generate run.2 = calls is_generate empty_world /\
  csv_rows run.2 = csv_rows empty_world /\
  local_fs run.2 = local_fs empty_world /\
  bucket_store run.2 = bucket_store empty_world.
Proof.
  apply (main_does_nothing_unless_ready Sample.env_no_listing Sample.defaults
           empty_world).
  intros (_ & [files Hfiles] & _). discriminate.
Defined.

(** Every call of the object writer that [main] makes is for a file that
    the Drive listing returned, carries the bytes that Drive returned for
    it, and goes to the object named after the file under the folder path
    of the flag, in the bucket of the flag or, when that is empty, in the
    bucket named after the project with the suffix "-media". *)
Theorem main_uploads_listed_files_to_the_configured_bucket E G w :
  (forall l, go_schedule E l ≡ₚ l) ->
  exists evs,
    calls is_upload (main E G w).2 = calls is_upload w ++ evs /\
    Forall (fun ev =>
              exists files file b,
                drive_List E (listFiles_query (sourceFolderID G) (mimeTypes G)) =
                  Ok files /\
                Some file ∈ files /\
                drive_Download E (Id file) = DownloadResp http_StatusOK (Ok b) /\
                ev = EvUpload
                       (if decide (gcsBucket G = "")
                        then os_Getenv E "PROJECT_ID" +:+ "-media"
                        else gcsBucket G)
                       (filepath_Join (gcsFolderPath G) (Name file)) b) evs.
Proof.
  intros Hfair.
  destruct (main_calls E G is_upload w)
    as [Hnone | (files & w0 & Hfiles & Hw0 & Hcalls)]; [done | done | |].
  { exists []. rewrite app_nil_r. split; [done | constructor]. }
  unfold process in Hcalls.
  destruct (run_tasks_collect E (configured E G) is_upload
              (fun file ev =>
                 exists b,
                   drive_Download E (Id file) = DownloadResp http_StatusOK (Ok b) /\
                   ev = EvUpload (gcsBucket (configured E G))
                          (filepath_Join (gcsFolderPath (configured E G)) (Name file))
                          b))
    with (files := go_schedule E (spawned (configured E G) (omap id files)))
         (w := w0)
    as (evs & Hevs & _ & Hall).
  { intros file w1.
    destruct (task_upload_calls E (configured E G) file w1)
      as [Hnone | (b & Hresp & Hone)].
    - exists []. rewrite app_nil_r. split; [done |]. split; [simpl; lia | constructor].
    - eexists [_]. split; [exact Hone |]. split; [simpl; lia |].
      constructor; [by exists b | constructor]. }
  exists evs. split; [by rewrite Hcalls, Hevs, Hw0 |].
  eapply Forall_impl; [exact Hall |].
  intros ev (file & Hin & b & Hresp & ->).
  destruct (configured_fields E G) as (_ & _ & _ & -> & ->).
  exists files, file, b. repeat split; try done.
  by eapply scheduled_file_is_listed.
Qed.

Lemma main_uploads_listed_files_to_the_configured_bucket_witness :
  exists evs,
    calls is_upload (main Sample.env Sample.defaults empty_world).2 =
      calls is_upload empty_world ++ evs /\
    Forall (fun ev =>
              exists files file b,
                drive_List Sample.env
                  (listFiles_query (sourceFolderID Sample.defaults)
                     (mimeTypes Sample.defaults)) = Ok files /\
                Some file ∈ files /\
                drive_Download Sample.env (Id file) =
                  DownloadResp http_StatusOK (Ok b) /\
                ev = EvUpload
                       (if decide (gcsBucket Sample.defaults = "")
                        then os_Getenv Sample.env "PROJECT_ID" +:+ "-media"
                        else gcsBucket Sample.defaults)
                       (filepath_Join (gcsFolderPath Sample.defaults) (Name file)) b)
           evs.
Proof.
  apply (main_uploads_listed_files_to_the_configured_bucket Sample.env
           Sample.defaults empty_world).
  intros l. simpl. apply reverse_Permutation.
Defined.

(** Every Drive download request that [main] makes is for a file that the
    listing returned, and with a positive maximum there are never more
    requests than the maximum. *)
Theorem main_requests_only_listed_files E G w :
  (forall l, go_schedule E l ≡ₚ l) ->
  exists evs,
    calls is_download (main E G w).2 = calls is_download w ++ evs /\
    (0 < maxFiles G -> len evs <= maxFiles G) /\
    Forall (fun ev =>
              exists files file,
                drive_List E (listFiles_query (sourceFolderID G) (mimeTypes G)) =
                  Ok files /\
                Some file ∈ files /\
                ev = EvDownload (Id file)) evs.
Proof.
  intros Hfair.
  destruct (main_calls E G is_download w)
    as [Hnone | (files & w0 & Hfiles & Hw0 & Hcalls)]; [done | done | |].
  { exists []. rewrite app_nil_r. split; [done |].
    split; [intros; unfold len; simpl; lia | constructor]. }
  unfold process in Hcalls.
  set (schedule := go_schedule E (spawned (configured E G) (omap id files))) in *.
  destruct (run_tasks_download_calls E (configured E G) schedule w0)
    as (k & Hk & Hevs & _).
  exists (map (fun f => EvDownload (Id f)) (take k schedule)).
  split; [by rewrite Hcalls, Hevs, Hw0 |]. split.
  - intros Hpos.
    pose proof (schedule_count E (configured E G) (omap id files) (Hfair _)) as Hcount.
    fold schedule in Hcount. unfold len in *.
    rewrite length_map, length_take.
    unfold specified_row_count in Hcount.
    destruct (configured_fields E G) as (_ & _ & Hmax & _). rewrite Hmax in Hcount.
    destruct (maxFiles G >? 0) eqn:Hgt; lia.
  - apply Forall_forall. intros ev Hev.
    apply list_elem_of_fmap in Hev as (file & -> & Hin).
    exists files, file. split; [done |]. split; [| done].
    apply (scheduled_file_is_listed E (configured E G) files file (Hfair _)).
    apply list_elem_of_lookup in Hin as [i Hi].
    apply lookup_take_Some in Hi as [Hi _].
    apply list_elem_of_lookup. by exists i.
Qed.

Lemma main_requests_only_listed_files_witness :
  let G := Flags.init [Flags.ArgMax 1] in
  exists evs,
    calls is_download (main Sample.env G empty_world).2 =
      calls is_download empty_world ++ evs /\
    (0 < maxFiles G -> len evs <= maxFiles G) /\
    Forall (fun ev =>
              exists files file,
                drive_List Sample.env
                  (listFiles_query (sourceFolderID G) (mimeTypes G)) = Ok files /\
                Some file ∈ files /\
                ev = EvDownload (Id file)) evs.
Proof.
  intros G.
  apply (main_requests_only_listed_files Sample.env G empty_world).
  intros l. simpl. apply reverse_Permutation.
Defined.

(** A listing without files is not an error: when everything [main] needs
    is in place and the listing holds no file, [main] returns normally,
    having made no download and appended no row. *)
Theorem main_on_an_empty_listing E G w files :
  startup_ok E ->
  drive_List E (listFiles_query (sourceFolderID G) (mimeTypes G)) = Ok files ->
  omap id files = [] ->
  os_Create E "descriptions.csv" = None ->
  go_schedule E [] = [] ->
  exists w',
    main E G w = (Ret tt, w') /\
    csv_rows w' = csv_rows w /\
    calls is_download w' = calls is_download w /\
    local_fs w' = local_fs w /\
    bucket_store w' = bucket_store w.
Proof.
  intros Hstart Hfiles Hnone Hcreate Hsched.
  destruct (main_run_cases E G w)
    as [(Hnot & _) | (_ & files' & w0 & Hfiles' & Hw0 & ->)].
  { exfalso. apply Hnot. split; [done |]. split; [eauto | done]. }
  assert (files' = files) as -> by congruence.
  rewrite Hnone. unfold process, spawned. rewrite take_nil, Hsched. simpl.
  eexists. split; [reflexivity |].
  destruct Hw0 as (Hfs & Hstore & Hrows & Hcalls). simpl.
  repeat split; try done.
  rewrite calls_emit_other by done. by apply Hcalls.
Qed.

Lemma main_on_an_empty_listing_witness :
  exists w',
    main Sample.env_empty_folder Sample.defaults empty_world = (Ret tt, w') /\
    csv_rows w' = csv_rows empty_world /\
    calls is_download w' = calls is_download empty_world /\
    local_fs w' = local_fs empty_world /\
    bucket_store w' = bucket_store empty_world.
Proof.
  apply (main_on_an_empty_listing Sample.env_empty_folder Sample.defaults
           empty_world []).
  - repeat split; try done. by exists [].
  - reflexivity.
  - reflexivity.
  - reflexivity.
  - reflexivity.
Defined.

(** ** The command line, flag by flag *)




(** ** Splitting and joining *)

Lemma strings_Split_not_nil s sep : strings_Split s sep <> [].
Proof.
  destruct s as [| c rest]; simpl; [done |].
  destruct (Ascii.eqb c sep); [done |].
  by destruct (strings_Split rest sep).
Qed.

Lemma concat_cons_String sep c piece pieces :
  String.concat sep (String c piece :: pieces) =
    String c (String.concat sep (piece :: pieces)).
Proof. by destruct pieces. Qed.

(** [strings.Split] loses nothing: it never returns an empty list, none of
    its pieces contains the separator, and joining the pieces with the
    separator gives the string back. *)
Theorem split_then_join_is_the_identity s sep :
  strings_Split s sep <> [] /\
  Forall (fun piece => ~ In sep (list_ascii_of_string piece)) (strings_Split s sep) /\
  strings_Join (strings_Split s sep) (String sep "") = s.
Proof.
  split; [apply strings_Split_not_nil |]. unfold strings_Join.
  induction s as [| c rest [IHno IHjoin]]; simpl.
  - split; [| done]. constructor; [by intros [] | constructor].
  - destruct (Ascii.eqb c sep) eqn:Hc.
    + apply Ascii.eqb_eq in Hc as ->. split.
      * constructor; [by intros [] | done].
      * pose proof (strings_Split_not_nil rest sep) as Hne.
        destruct (strings_Split rest sep) as [| piece pieces]; [done |].
        simpl in *. by rewrite IHjoin.
    + apply Ascii.eqb_neq in Hc.
      pose proof (strings_Split_not_nil rest sep) as Hne.
      destruct (strings_Split rest sep) as [| piece pieces]; [done |]. split.
      * apply Forall_cons in IHno as [Hpiece Hrest].
        constructor; [| done]. simpl. intros [Heq | Hin]; [by apply Hc | done].
      * rewrite concat_cons_String. by rewrite IHjoin.
Qed.

(** ** The credential store *)

Section Credentials.

Import Auth.

Context (E : Auth.Env).

Lemma exchanges_emit o w :
  exchanges (Auth.emit o w) =
    exchanges w ++ (match o with Exchanged _ _ => [o] | _ => [] end).
Proof.
  unfold exchanges. simpl. rewrite List.filter_app. simpl.
  destruct o; simpl; by rewrite ?app_nil_r.
Qed.

Lemma launches_emit o w :
  launches (Auth.emit o w) =
    launches w ++ (match o with Browser _ => [o] | _ => [] end).
Proof.
  unfold launches. simpl. rewrite List.filter_app. simpl.
  destruct o; simpl; by rewrite ?app_nil_r.
Qed.

(** A token file that opens and decodes is returned as it is. *)
Lemma tokenFromFile_cached file w content tok :
  os_Open E file = None ->
  disk w !! file = Some content ->
  json_Decode E content = (tok, None) ->
  tokenFromFile E file w = (Auth.Ret (Some tok, None), w).
Proof.
  intros Hopen Hfile Hdecode. unfold tokenFromFile.
  by rewrite Hopen, Hfile, Hdecode.
Qed.

(** [tokenFromFile] changes nothing, and returns no error only with the
    token decoded from the file. *)
Lemma tokenFromFile_spec file w :
  exists r,
    tokenFromFile E file w = (Auth.Ret r, w) /\
    (r.2 = None ->
     exists content tok,
       os_Open E file = None /\ disk w !! file = Some content /\
       json_Decode E content = (tok, None) /\ r.1 = Some tok).
Proof.
  unfold tokenFromFile.
  destruct (os_Open E file) as [e |]; [eexists; split; [done | discriminate] |].
  destruct (disk w !! file) as [content |]; [| eexists; split; [done | discriminate]].
  destruct (json_Decode E content) as [tok err] eqn:Hdecode.
  eexists. split; [done |]. simpl. intros ->. by exists content, tok.
Qed.

(** The browser flow: it never touches the disk; it sets the redirect
    address; it exchanges at most once, the non-empty code of the callback,
    and returns only the token of a successful exchange. *)
Lemma getTokenFromWebLaunch_spec w :
  let config := mkConfig (ClientID (oauth_config w)) "http://localhost:8080" in
  let run := getTokenFromWebLaunch E w in
  disk run.2 = disk w /\
  oauth_config run.2 = config /\
  (exchanges run.2 = exchanges w \/
   exists code,
     callback E = FirstRequest code /\ code <> "" /\
     exchanges run.2 = exchanges w ++ [Exchanged config code]) /\
  (forall tok,
     run.1 = Auth.Ret tok ->
     exists code,
       callback E = FirstRequest code /\ code <> "" /\
       open_Run E (AuthCodeURL E config) = None /\
       Exchange E config code = Ok tok /\
       exchanges run.2 = exchanges w ++ [Exchanged config code]).
Proof.
  intros config run. subst run.
  unfold getTokenFromWebLaunch, Auth.bind, say, config_Exchange. simpl.
  fold config.
  destruct (open_Run E (AuthCodeURL E config)) as [e |] eqn:Hopen; simpl.
  { repeat split; try done. left. by rewrite !exchanges_emit, !app_nil_r. }
  destruct (callback E) as [e | code |] eqn:Hcb; simpl.
  - repeat split; try done. left. by rewrite !exchanges_emit, !app_nil_r.
  - destruct (decide (code <> "")) as [Hcode | Hcode]; simpl.
    + destruct (Exchange E config code) as [tok | e] eqn:Hex; simpl.
      * repeat split; try done.
        -- right. exists code. repeat split; try done.
           by rewrite !exchanges_emit, !app_nil_r.
        -- intros tok' [= <-]. exists code. repeat split; try done.
           by rewrite !exchanges_emit, !app_nil_r.
      * repeat split; try done.
        right. exists code. repeat split; try done.
        by rewrite !exchanges_emit, !app_nil_r.
    + repeat split; try done. left. by rewrite !exchanges_emit, !app_nil_r.
  - repeat split; try done. left. by rewrite !exchanges_emit, !app_nil_r.
Qed.

(** The manual flow: it touches neither the disk nor the configuration,
    launches no browser, exchanges at most once, the code read from the
    terminal, and returns only the token of a successful exchange. *)
Lemma getTokenFromWeb_spec w :
  let run := getTokenFromWeb E w in
  disk run.2 = disk w /\
  oauth_config run.2 = oauth_config w /\
  launches run.2 = launches w /\
  (exchanges run.2 = exchanges w \/
   exists code,
     fmt_Scan E = Ok code /\
     exchanges run.2 = exchanges w ++ [Exchanged (oauth_config w) code]) /\
  (forall tok,
     run.1 = Auth.Ret tok ->
     exists code,
       fmt_Scan E = Ok code /\ Exchange E (oauth_config w) code = Ok tok).
Proof.
  intros run. subst run.
  unfold getTokenFromWeb, Auth.bind, say, config_Exchange. simpl.
  destruct (fmt_Scan E) as [code | e] eqn:Hscan; simpl.
  - destruct (Exchange E (oauth_config w) code) as [tok | e] eqn:Hex; simpl.
    + repeat split; try done.
      * by rewrite !launches_emit, !app_nil_r.
      * right. exists code. split; [done |]. by rewrite !exchanges_emit, !app_nil_r.
      * intros tok' [= <-]. by exists code.
    + repeat split; try done.
      * by rewrite !launches_emit, !app_nil_r.
      * right. exists code. split; [done |]. by rewrite !exchanges_emit, !app_nil_r.
  - repeat split; try done.
    + by rewrite !launches_emit, !app_nil_r.
    + left. by rewrite !exchanges_emit, !app_nil_r.
Qed.

(** Saving writes the encoded token at the path, or stops the process
    with the disk as it was; nothing else changes. *)
Lemma saveToken_spec path tok w :
  let run := saveToken E path tok w in
  oauth_config run.2 = oauth_config w /\
  exchanges run.2 = exchanges w /\
  launches run.2 = launches w /\
  ((run.1 = Auth.Ret tt /\ os_OpenFile E path = None /\
    disk run.2 = <[path := json_Encode E tok]> (disk w)) \/
   (run.1 <> Auth.Ret tt /\ disk run.2 = disk w)).
Proof.
  intros run. subst run. unfold saveToken, Auth.bind, say. simpl.
  destruct (os_OpenFile E path) as [e |]; simpl.
  - repeat split; try done.
    + by rewrite !exchanges_emit, !app_nil_r.
    + by rewrite !launches_emit, !app_nil_r.
    + by right.
  - repeat split; try done.
    + unfold exchanges. simpl. rewrite List.filter_app. simpl. apply app_nil_r.
    + unfold launches. simpl. rewrite List.filter_app. simpl. apply app_nil_r.
    + by left.
Qed.

End Credentials.

Section GetClient.

Import Auth.

Context (E : Auth.Env).

(** The interactive flow that [getClient] runs when the cached token
    cannot be used. *)
Let flow (manualAuth : bool) : Auth.Prog Token :=
  if negb manualAuth then getTokenFromWebLaunch E else getTokenFromWeb E.

(** [getClient] either uses the cached token and changes nothing, or runs
    the interactive flow and then saves the token. *)
Lemma getClient_cases manualAuth w :
  (exists content tok,
     os_Open E "token.json" = None /\
     disk w !! "token.json" = Some content /\
     json_Decode E content = (tok, None) /\
     getClient E manualAuth w =
       (Auth.Ret (mkClient (oauth_config w) (Some tok)), w)) \/
  (exists r e,
     tokenFromFile E "token.json" w = (Auth.Ret r, w) /\ r.2 = Some e /\
     getClient E manualAuth w =
       (let! tok := flow manualAuth in
        let! _ := saveToken E "token.json" tok in
        fun w' => (Auth.Ret (mkClient (oauth_config w') (Some tok)), w')) w).
Proof.
  destruct (tokenFromFile_spec E "token.json" w) as ([tok0 err] & Hread & Hnone).
  destruct err as [e |].
  - right. exists (tok0, Some e), e. split; [done |]. split; [done |].
    unfold getClient, flow, Auth.bind at 1 2. rewrite Hread. simpl.
    destruct manualAuth; simpl; unfold Auth.bind;
      repeat (match goal with
              | |- context [match ?m ?x with _ => _ end] =>
                  destruct (m x) as [[? | ? | ] ?]
              end; simpl; try done).
  - left. destruct (Hnone eq_refl) as (content & tok & Hopen & Hfile & Hdecode & Htok).
    simpl in Htok. subst tok0. exists content, tok. repeat split; try done.
    unfold getClient, Auth.bind. by rewrite Hread.
Qed.

End GetClient.

(** When [token.json] opens and decodes without error, [getClient] returns
    a client with the cached token and does nothing else, in either mode:
    no browser, no prompt, no exchange, and the file is not rewritten. *)
Theorem cached_token_is_reused E manualAuth w content tok :
  Auth.os_Open E "token.json" = None ->
  Auth.disk w !! "token.json" = Some content ->
  Auth.json_Decode E content = (tok, None) ->
  Auth.getClient E manualAuth w =
    (Auth.Ret (Auth.mkClient (Auth.oauth_config w) (Some tok)), w).
Proof.
  intros Hopen Hfile Hdecode.
  unfold Auth.getClient, Auth.bind.
  by rewrite (tokenFromFile_cached E _ _ _ _ Hopen Hfile Hdecode).
Qed.

Lemma cached_token_is_reused_witness :
  let w := Auth.mkWorld {[ "token.json" := list_byte_of_string "ya29.cached" ]}
             (Auth.oauth_config Auth.sample_world) [] in
  Auth.getClient Auth.sample_env false w =
    (Auth.Ret (Auth.mkClient (Auth.oauth_config w)
                 (Some (Auth.mkToken "ya29.cached" ""))), w).
Proof.
  intros w.
  apply (cached_token_is_reused Auth.sample_env false w
           (list_byte_of_string "ya29.cached")).
  - reflexivity.
  - vm_compute. reflexivity.
  - vm_compute. reflexivity.
Defined.

(** The token that a call of [getClient] returned is the one the next call
    returns, without any interaction: when [token.json] can be opened and
    the decoder reads back what the encoder wrote for that token, a second
    call (in either mode) returns a client with the same token and changes
    nothing. *)
Theorem saved_token_is_read_back E manualAuth manualAuth' w client w1 :
  Auth.getClient E manualAuth w = (Auth.Ret client, w1) ->
  Auth.os_Open E "token.json" = None ->
  (forall tok,
     Auth.client_token client = Some tok ->
     Auth.json_Decode E (Auth.json_Encode E tok) = (tok, None)) ->
  Auth.getClient E manualAuth' w1 =
    (Auth.Ret (Auth.mkClient (Auth.oauth_config w1) (Auth.client_token client)), w1).
Proof.
  intros Hfirst Hopen Hcodec.
  destruct (getClient_cases E manualAuth w)
    as [(content & tok & _ & Hfile & Hdecode & Hget) | (r & e & _ & _ & Hget)];
    rewrite Hget in Hfirst.
  - injection Hfirst as <- <-. simpl.
    unfold Auth.getClient, Auth.bind.
    by rewrite (tokenFromFile_cached E _ _ _ _ Hopen Hfile Hdecode).
  - unfold Auth.bind in Hfirst.
    destruct ((if negb manualAuth
               then Auth.getTokenFromWebLaunch E
               else Auth.getTokenFromWeb E) w) as [[tok | msg |] wf]; try discriminate.
    destruct (saveToken_spec E "token.json" tok wf)
      as (_ & _ & _ & [(Hret & _ & Hdisk) | (Hfail & _)]).
    + destruct (Auth.saveToken E "token.json" tok wf) as [[[] | msg |] ws];
        try discriminate.
      injection Hfirst as <- <-. simpl in *.
      assert (Hfile : Auth.disk ws !! "token.json" = Some (Auth.json_Encode E tok))
        by (rewrite Hdisk; apply lookup_insert_eq).
      unfold Auth.getClient, Auth.bind.
      by rewrite (tokenFromFile_cached E _ _ _ _ Hopen Hfile (Hcodec tok eq_refl)).
    + destruct (Auth.saveToken E "token.json" tok wf) as [[[] | msg |] ws];
        try discriminate. done.
Qed.

Lemma saved_token_is_read_back_witness :
  let first := Auth.getClient Auth.sample_env false Auth.sample_world in
  first.1 = Auth.Ret (Auth.mkClient
                        (Auth.mkConfig "drivetogcs.apps.googleusercontent.com"
                           "http://localhost:8080")
                        (Some (Auth.mkToken "ya29.a0" ""))) /\
  Auth.getClient Auth.sample_env true first.2 =
    (Auth.Ret (Auth.mkClient (Auth.oauth_config first.2)
                 (Some (Auth.mkToken "ya29.a0" ""))), first.2).
Proof.
  intros first. split; [vm_compute; reflexivity |].
  apply (saved_token_is_read_back Auth.sample_env false true Auth.sample_world
           (Auth.mkClient
              (Auth.mkConfig "drivetogcs.apps.googleusercontent.com"
                 "http://localhost:8080")
              (Some (Auth.mkToken "ya29.a0" "")))).
  - vm_compute. reflexivity.
  - reflexivity.
  - intros tok [= <-]. vm_compute. reflexivity.
Defined.

(** [getClient] writes no file but [token.json], and writes that one only
    when it goes on to return a client: a call that stops the process or
    waits forever (no code, a refused exchange, a browser that cannot be
    opened, a token file that cannot be created) leaves the disk as it
    was. *)
Theorem getClient_writes_only_a_token_it_obtained E manualAuth w :
  let run := Auth.getClient E manualAuth w in
  (forall path, path <> "token.json" ->
     Auth.disk run.2 !! path = Auth.disk w !! path) /\
  ((forall client, run.1 <> Auth.Ret client) -> Auth.disk run.2 = Auth.disk w) /\
  (forall client,
     run.1 = Auth.Ret client ->
     Auth.disk run.2 = Auth.disk w \/
     exists tok,
       Auth.client_token client = Some tok /\
       Auth.disk run.2 = <["token.json" := Auth.json_Encode E tok]> (Auth.disk w)).
Proof.
  intros run. subst run.
  destruct (getClient_cases E manualAuth w)
    as [(content & tok & _ & _ & _ & ->) | (r & e & _ & _ & ->)].
  { simpl. split; [done |]. split; [done |]. intros client _. by left. }
  unfold Auth.bind.
  assert (Hflow : Auth.disk
            ((if negb manualAuth
              then Auth.getTokenFromWebLaunch E
              else Auth.getTokenFromWeb E) w).2 = Auth.disk w).
  { destruct manualAuth; simpl.
    - apply (getTokenFromWeb_spec E w).
    - apply (getTokenFromWebLaunch_spec E w). }
  destruct ((if negb manualAuth
             then Auth.getTokenFromWebLaunch E
             else Auth.getTokenFromWeb E) w) as [[tok | msg |] wf];
    simpl in Hflow; simpl.
  2,3: split; [by intros; rewrite Hflow |];
       split; [by intros; rewrite Hflow | by intros client [=]].
  destruct (saveToken_spec E "token.json" tok wf)
    as (_ & _ & _ & [(Hret & _ & Hdisk) | (Hfail & Hdisk)]).
  - destruct (Auth.saveToken E "token.json" tok wf) as [[[] | msg |] ws];
      try discriminate. simpl in *. rewrite Hdisk, Hflow.
    split; [intros path Hne; by rewrite lookup_insert_ne |].
    split; [intros Hnot; by destruct (Hnot _ eq_refl) |].
    intros client [= <-]. right. by exists tok.
  - destruct (Auth.saveToken E "token.json" tok wf) as [[[] | msg |] ws];
      [done | |]; simpl in *; rewrite Hdisk, Hflow;
      (split; [done |]; split; [done | by intros client [=]]).
Qed.

(** Saving the token adds nothing to what the interactive flow exchanged,
    launched or configured. *)
Lemma getClient_after_the_flow E manualAuth w :
  let run := Auth.getClient E manualAuth w in
  (run.2 = w) \/
  (let done := (if negb manualAuth
                then Auth.getTokenFromWebLaunch E
                else Auth.getTokenFromWeb E) w in
   Auth.exchanges run.2 = Auth.exchanges done.2 /\
   Auth.launches run.2 = Auth.launches done.2 /\
   Auth.oauth_config run.2 = Auth.oauth_config done.2).
Proof.
  intros run. subst run.
  destruct (getClient_cases E manualAuth w)
    as [(content & tok & _ & _ & _ & ->) | (r & e & _ & _ & ->)]; [by left |].
  right. unfold Auth.bind.
  destruct ((if negb manualAuth
             then Auth.getTokenFromWebLaunch E
             else Auth.getTokenFromWeb E) w) as [[tok | msg |] wf]; simpl; try done.
  destruct (saveToken_spec E "token.json" tok wf) as (Hcfg & Hex & Hla & _).
  by destruct (Auth.saveToken E "token.json" tok wf) as [[[] | msg |] ws].
Qed.

(** What [getClient] exchanges. In the browser mode: at most one exchange,
    of the non-empty code that arrived on the callback, made with the
    redirect address http://localhost:8080. In the manual mode: no browser
    is launched, the configuration is left as it is, and there is at most
    one exchange, of the code read from the terminal. A callback without a
    code is never exchanged. *)
Theorem getClient_exchanges_the_code_it_received E w :
  (let run := Auth.getClient E false w in
   Auth.exchanges run.2 = Auth.exchanges w \/
   exists code,
     Auth.callback E = Auth.FirstRequest code /\ code <> "" /\
     Auth.exchanges run.2 =
       Auth.exchanges w ++
       [Auth.Exchanged
          (Auth.mkConfig (Auth.ClientID (Auth.oauth_config w)) "http://localhost:8080")
          code]) /\
  (let run := Auth.getClient E true w in
   Auth.launches run.2 = Auth.launches w /\
   Auth.oauth_config run.2 = Auth.oauth_config w /\
   (Auth.exchanges run.2 = Auth.exchanges w \/
    exists code,
      Auth.fmt_Scan E = Ok code /\
      Auth.exchanges run.2 =
        Auth.exchanges w ++ [Auth.Exchanged (Auth.oauth_config w) code])).
Proof.
  split; cbv zeta.
  - destruct (getClient_after_the_flow E false w) as [-> | (Hex & _)]; [by left |].
    simpl in Hex. rewrite Hex.
    by destruct (getTokenFromWebLaunch_spec E w) as (_ & _ & Hcases & _).
  - destruct (getClient_after_the_flow E true w) as [-> | (Hex & Hla & Hcfg)].
    { split; [done |]. split; [done | by left]. }
    simpl in Hex, Hla, Hcfg. rewrite Hex, Hla, Hcfg.
    by destruct (getTokenFromWeb_spec E w) as (_ & Hc & Hl & Hcases & _).
Qed.

(** A callback that carries no code stops the process: the browser mode of
    [getClient] on a disk without a usable token, a browser that opens and
    a first request without code ends with the fatal message of the
    listener, exchanges nothing and writes no token file. *)
Theorem callback_without_code_is_fatal E w r e :
  Auth.tokenFromFile E "token.json" w = (Auth.Ret r, w) ->
  r.2 = Some e ->
  Auth.open_Run E
    (Auth.AuthCodeURL E
       (Auth.mkConfig (Auth.ClientID (Auth.oauth_config w)) "http://localhost:8080"))
    = None ->
  Auth.callback E = Auth.FirstRequest "" ->
  let run := Auth.getClient E false w in
  run.1 = Auth.Fatal "received an error while listening for token: no code in exchange" /\
  Auth.exchanges run.2 = Auth.exchanges w /\
  Auth.disk run.2 = Auth.disk w.
Proof.
  intros Hread Herr Hopen Hcb run. subst run.
  assert (Hflow : (Auth.getTokenFromWebLaunch E w).1 =
                  Auth.Fatal "received an error while listening for token: no code in exchange").
  { unfold Auth.getTokenFromWebLaunch, Auth.bind, Auth.say. simpl.
    rewrite Hopen. simpl. by rewrite Hcb. }
  destruct (getTokenFromWebLaunch_spec E w) as (Hdisk & _ & Hcases & _).
  simpl in Hdisk, Hcases.
  destruct (Auth.getTokenFromWebLaunch E w) as [o wf] eqn:Hf.
  simpl in Hflow, Hdisk, Hcases. subst o.
  assert (Hrun : Auth.getClient E false w =
                 (Auth.Fatal "received an error while listening for token: no code in exchange",
                  wf)).
  { unfold Auth.getClient. cbv zeta. unfold Auth.bind at 1. rewrite Hread.
    cbv beta iota. unfold Auth.bind at 1. rewrite Herr.
    change (negb false) with true. cbv iota.
    unfold Auth.bind at 1. by rewrite Hf. }
  rewrite Hrun. simpl.
  split; [done |]. split; [| done].
  destruct Hcases as [Hsame | (code & Hcode & Hne & _)]; [done |].
  rewrite Hcb in Hcode. by injection Hcode as <-.
Qed.

Lemma callback_without_code_is_fatal_witness :
  let run := Auth.getClient Auth.sample_env_no_code false Auth.sample_world in
  run.1 = Auth.Fatal "received an error while listening for token: no code in exchange" /\
  Auth.exchanges run.2 = Auth.exchanges Auth.sample_world /\
  Auth.disk run.2 = Auth.disk Auth.sample_world.
Proof.
  apply (callback_without_code_is_fatal Auth.sample_env_no_code Auth.sample_world
           (None, Some "open token.json: no such file or directory")
           "open token.json: no such file or directory").
  - vm_compute. reflexivity.
  - reflexivity.
  - reflexivity.
  - reflexivity.
Defined.
